(** * Shallow embedding of libavformat/tcp.c (ijkplayer's TCP protocol):
    the process-wide DNS cache ([get_dns_cache], [set_dns_cache]), the
    background resolver ([ijk_tcp_getaddrinfo_nonblock] and its two
    workers) and the connect loop of [tcp_open]. *)

From Stdlib Require Import ZArith List Lia Bool.
From stdpp Require Import base gmap strings.
#[local] Set Warnings "-register-all".
Import ListNotations.
Open Scope Z_scope.

(* ------------------------------------------------------------------ *)
(** ** Constants of the platform (Darwin / iOS values) *)

Definition AF_UNSPEC : Z := 0.
Definition AF_INET : Z := 2.
Definition AF_INET6 : Z := 30.
Definition SOCK_STREAM : Z := 1.

(** [sizeof(struct sockaddr)] *)
Definition sizeof_sockaddr : nat := 16.

(** [AVERROR_EXIT = FFERRTAG('E','X','I','T')] *)
Definition AVERROR_EXIT : Z :=
  - (69 + 88 * 256 + 73 * 65536 + 84 * 16777216).
Definition ETIMEDOUT : Z := 60.
Definition EIO : Z := 5.
Definition EINVAL : Z := 22.
Definition ENOMEM : Z := 12.
(** [AVERROR(e) = -e] *)
Definition AVERROR (e : Z) : Z := - e.
(** Two [getaddrinfo] error codes (Darwin's netdb.h). *)
Definition EAI_FAIL : Z := 4.
Definition EAI_NONAME : Z := 8.

(* ------------------------------------------------------------------ *)
(** ** struct addrinfo: a linked list through [ai_next] *)

Inductive addrinfo := mk_addrinfo {
  ai_flags : Z;
  ai_family : Z;
  ai_socktype : Z;
  ai_protocol : Z;
  ai_addrlen : Z;
  ai_addr : option (list Byte.byte);        (* NULL or the sockaddr bytes *)
  ai_canonname : option string;
  ai_next : option addrinfo
}.

(** The nodes of the list, each with its own tail, head first. *)
Fixpoint ai_nodes (a : addrinfo) : list addrinfo :=
  a :: match ai_next a with Some n => ai_nodes n | None => [] end.

Definition ai_set_next (a : addrinfo) (n : option addrinfo) : addrinfo :=
  mk_addrinfo (ai_flags a) (ai_family a) (ai_socktype a) (ai_protocol a)
    (ai_addrlen a) (ai_addr a) (ai_canonname a) n.

Definition ai_set_addr (a : addrinfo) (b : option (list Byte.byte)) : addrinfo :=
  mk_addrinfo (ai_flags a) (ai_family a) (ai_socktype a) (ai_protocol a)
    (ai_addrlen a) b (ai_canonname a) (ai_next a).

(** The record contents without the link: what one element of the list
    carries. *)
Definition ai_elem (a : addrinfo) : addrinfo := ai_set_next a None.

Fixpoint ai_elems (a : addrinfo) : list addrinfo :=
  ai_elem a :: match ai_next a with Some n => ai_elems n | None => [] end.

(** [av_mallocz(sizeof(struct sockaddr))] followed by
    [memcpy(dst, src, sizeof(struct sockaddr))]: the first 16 bytes of the
    source.  A source shorter than 16 bytes would be read out of bounds in
    C; the model keeps the zeroes of the fresh buffer there. *)
Definition copy_sockaddr (b : list Byte.byte) : list Byte.byte :=
  firstn sizeof_sockaddr b ++ repeat Byte.x00 (sizeof_sockaddr - length b).

(** The private copy made by [set_dns_cache] and by [get_dns_cache]:
    [memcpy] of the struct, a fresh 16-byte [ai_addr], and
    [ai_canonname = ai_next = NULL]. *)
Definition copy_private_addrinfo (a : addrinfo) : addrinfo :=
  mk_addrinfo (ai_flags a) (ai_family a) (ai_socktype a) (ai_protocol a)
    (ai_addrlen a) (option_map copy_sockaddr (ai_addr a)) None None.

(* ------------------------------------------------------------------ *)
(** ** The DNS cache: [dns_dictionary] *)

Record DnsCacheInfo := mk_DnsCacheInfo {
  dns_cache_time : Z;
  dns_res : option addrinfo
}.

(** [dns_dictionary] maps a hostname to the decimal text of a
    [DnsCacheInfo *]; [av_dict_set_int(&d, host, 0, 0)] leaves the key
    with the value "0", read back as NULL.  A value is therefore [None]
    (the pointer 0) or [Some info]. *)
Abbreviation dns_dict := (gmap string (option DnsCacheInfo)).

(** The live entry for a hostname, if any. *)
Definition cache_entry (d : dns_dict) (h : string) : option DnsCacheInfo :=
  match d !! h with Some (Some i) => Some i | _ => None end.

(** The options of [TCPContext] that the modelled code reads. *)
Record TCPContext := mk_TCPContext {
  listen : Z;
  open_timeout : Z;
  addrinfo_one_by_one : Z;
  addrinfo_timeout : Z;
  dns_cache : Z;
  dns_cache_timeout : Z;
  dns_cache_clear : Z
}.

(** The age bound of the freshness test of [get_dns_cache]:
    [dns_cache_info->dns_cache_time + s->dns_cache_timeout * 1000 > cur_time]. *)
Definition dns_cache_fresh (s : TCPContext) (info : DnsCacheInfo) (cur_time : Z)
  : bool :=
  (dns_cache_timeout s <? 0)
  || (cur_time <? dns_cache_time info + dns_cache_timeout s * 1000).

(** Whether the allocations of [get_dns_cache] succeed:
    [av_mallocz(sizeof(struct addrinfo))] and
    [av_mallocz(sizeof(struct sockaddr))]. *)
Record GetAlloc := mk_GetAlloc {
  get_ai_ok : bool;
  get_addr_ok : bool
}.

(** Whether the allocations of [set_dns_cache] succeed: the
    [DnsCacheInfo], its [addrinfo] and its [sockaddr]. *)
Record SetAlloc := mk_SetAlloc {
  set_info_ok : bool;
  set_res_ok : bool;
  set_addr_ok : bool
}.

Definition get_alloc_ok : GetAlloc := mk_GetAlloc true true.
Definition set_alloc_ok : SetAlloc := mk_SetAlloc true true true.

(** [get_dns_cache(h, hostname, &ai)] at [av_gettime() = cur_time]:
    the return value (1 on a hit), the address written to [*p_ai] and the
    dictionary afterwards.  A failed allocation while copying a fresh
    entry jumps to [fail]: the lookup misses and the entry stays. *)
Definition get_dns_cache (ga : GetAlloc) (s : TCPContext) (cur_time : Z) (hostname : string)
    (d : dns_dict) : Z * option addrinfo * dns_dict :=
  if (cur_time <? 0) || bool_decide (hostname = ""%string) then (0, None, d) else
  match d !! hostname with
  | Some (Some info) =>
      if negb (dns_cache_clear s =? 0) then (0, None, <[hostname := None]> d)
      else if dns_cache_fresh s info cur_time then
        match dns_res info with
        | Some r =>
            match ai_addr r with
            | Some _ =>
                if get_ai_ok ga && get_addr_ok ga
                then (1, Some (copy_private_addrinfo r), d)
                else (0, None, d)                        (* goto fail *)
            | None => (0, None, <[hostname := None]> d)
            end
        | None => (0, None, <[hostname := None]> d)
        end
      else (0, None, <[hostname := None]> d)
  | _ => (0, None, d)
  end.

(** [set_dns_cache(hostname, cur_ai)] at [av_gettime() = cur_time]; a
    failed allocation returns with nothing stored. *)
Definition set_dns_cache (sa : SetAlloc) (cur_time : Z) (hostname : string) (cur_ai : addrinfo)
    (d : dns_dict) : dns_dict :=
  if (cur_time <? 0) || bool_decide (hostname = ""%string) then d else
  match ai_addr cur_ai with
  | None => d
  | Some _ =>
      if set_info_ok sa && set_res_ok sa && set_addr_ok sa then
        <[hostname := Some (mk_DnsCacheInfo cur_time
                              (Some (copy_private_addrinfo cur_ai)))]> d
      else d
  end.

(** The invalidation done on the failure path of [tcp_open] when the
    address came from the cache. *)
Definition invalidate_dns_cache (hostname : string) (d : dns_dict) : dns_dict :=
  match d !! hostname with
  | Some (Some _) => <[hostname := None]> d
  | _ => d
  end.

(* ------------------------------------------------------------------ *)
(** ** The background resolver *)

(** Appending [temp_addrinfo] to the list: [cur = req->res; while
    (cur->ai_next) cur = cur->ai_next; cur->ai_next = temp_addrinfo;]. *)
Fixpoint ai_append (a : addrinfo) (t : option addrinfo) : addrinfo :=
  match ai_next a with
  | None => ai_set_next a t
  | Some n => ai_set_next a (Some (ai_append n t))
  end.

(** The fields of [TCPAddrinfoRequest] shared between the waiter and the
    worker. *)
Record ReqState := mk_ReqState {
  finished : bool;
  req_res : option addrinfo;
  last_error : Z
}.

Definition req_init : ReqState := mk_ReqState false None 0.

(** The platform [getaddrinfo] for the request's host and service, as a
    function of the family hint: its return value and, when that is 0,
    the list it stores through [res]. *)
Definition getaddrinfo_fn := Z -> Z * option addrinfo.

(** [tcp_getaddrinfo_worker]: the states of the request it leaves
    behind, in order.  The return value of [getaddrinfo] is dropped. *)
Definition tcp_getaddrinfo_worker (gai : getaddrinfo_fn) (hints_family : Z)
    (st : ReqState) : list ReqState :=
  let '(ret, r) := gai hints_family in
  let st1 := if ret =? 0 then mk_ReqState (finished st) r (last_error st)
             else st in
  [st1; mk_ReqState true (req_res st1) (last_error st1)].

(** What the one-by-one worker does that the waiter can observe: its
    [getaddrinfo] calls, the request mutex, each write of the shared fields
    (as the state they leave) and the signal. *)
Inductive worker_event :=
  | WGetaddrinfo (family : Z)
  | WLock
  | WUnlock
  | WStore (st : ReqState)
  | WSignal.

(** One iteration of the loop of [tcp_getaddrinfo_one_by_one_worker]: a
    failure writes [req->last_error] and continues, without the mutex; a
    success sets or extends [req->res] with the mutex held. *)
Definition one_by_one_step (gai : getaddrinfo_fn) (family : Z) (st : ReqState)
  : list worker_event * ReqState :=
  let '(ret, temp_addrinfo) := gai family in
  if negb (ret =? 0) then
    let st1 := mk_ReqState (finished st) (req_res st) ret in
    ([WGetaddrinfo family; WStore st1], st1)
  else
    let st1 := match req_res st with
               | None => mk_ReqState (finished st) temp_addrinfo (last_error st)
               | Some r => mk_ReqState (finished st) (Some (ai_append r temp_addrinfo))
                             (last_error st)
               end in
    ([WGetaddrinfo family; WLock; WStore st1; WUnlock], st1).

(** The loop over [family_option]: what it does, and the state after each
    iteration. *)
Fixpoint one_by_one_loop (gai : getaddrinfo_fn) (fams : list Z) (st : ReqState)
  : list worker_event * list ReqState :=
  match fams with
  | [] => ([], [])
  | f :: fs =>
      let '(evs1, st1) := one_by_one_step gai f st in
      let '(evs, sts) := one_by_one_loop gai fs st1 in
      (evs1 ++ evs, st1 :: sts)
  end.

Definition family_option : list Z := [AF_INET; AF_INET6].

(** [tcp_getaddrinfo_one_by_one_worker]: what it does and the states it
    leaves behind, the last one with [finished = 1], written under the
    mutex before the signal. *)
Definition tcp_getaddrinfo_one_by_one_worker (gai : getaddrinfo_fn)
    (st : ReqState) : list worker_event * list ReqState :=
  let '(evs, sts) := one_by_one_loop gai family_option st in
  let st_end := List.last sts st in
  let st_fin := mk_ReqState true (req_res st_end) (last_error st_end) in
  (evs ++ [WLock; WStore st_fin; WSignal; WUnlock], sts ++ [st_fin]).

(** The families a worker trace queries, in order. *)
Fixpoint worker_calls (evs : list worker_event) : list Z :=
  match evs with
  | [] => []
  | WGetaddrinfo f :: evs' => f :: worker_calls evs'
  | _ :: evs' => worker_calls evs'
  end.

(** Along a worker trace starting from [prev] with the mutex held or not
    ([held]): every write that changes [req->res] or [req->finished] is
    made with the mutex held. *)
Fixpoint shared_writes_locked (held : bool) (prev : ReqState) (evs : list worker_event)
  : Prop :=
  match evs with
  | [] => True
  | WLock :: evs' => shared_writes_locked true prev evs'
  | WUnlock :: evs' => shared_writes_locked false prev evs'
  | WStore st :: evs' =>
      (req_res st <> req_res prev \/ finished st <> finished prev -> held = true) /\
      shared_writes_locked held st evs'
  | _ :: evs' => shared_writes_locked held prev evs'
  end.

(** What the waiter takes when it sees [finished] or the deadline:
    [if (req->res) { ret = 0; *res = req->res; } else
     ret = req->last_error ? req->last_error : AVERROR_EXIT;]. *)
Definition consume_result (st : ReqState) : Z * option addrinfo :=
  match req_res st with
  | Some r => (0, Some r)
  | None => (if last_error st =? 0 then AVERROR_EXIT else last_error st, None)
  end.

(** One wakeup of [pthread_cond_timedwait]: its return value, the answer
    of [ff_check_interrupt], the next [av_gettime()] and the request state
    seen at the next test of the loop. *)
Record Wakeup := mk_Wakeup {
  tw_ret : Z;
  interrupted : bool;
  now_after : Z;
  state_after : ReqState
}.

Inductive resolve_event :=
  | RGetaddrinfo (host : option string) (family : Z)
  | RSpawn (one_by_one : bool)
  | RCheckInterrupt.

(** The [while (1)] loop of [ijk_tcp_getaddrinfo_nonblock]; [None] when
    the wakeups given run out while it is still waiting. *)
Fixpoint wait_loop (start timeout now : Z) (st : ReqState) (ws : list Wakeup)
  : option (Z * option addrinfo) * list resolve_event :=
  if finished st || (start + timeout <? now) then (Some (consume_result st), [])
  else
    match ws with
    | [] => (None, [])
    | w :: ws' =>
        if negb (tw_ret w =? 0) && negb (tw_ret w =? ETIMEDOUT)
        then (Some (AVERROR_EXIT, None), [])
        else if interrupted w then (Some (AVERROR_EXIT, None), [RCheckInterrupt])
        else
          let '(r, evs) := wait_loop start timeout (now_after w) (state_after w) ws' in
          (r, RCheckInterrupt :: evs)
    end.

(** What the environment answers to the resolver. *)
Record ResolveEnv := mk_ResolveEnv {
  gai_call : option string -> getaddrinfo_fn;   (* the calling-thread getaddrinfo *)
  request_create_ret : Z;                        (* tcp_getaddrinfo_request_create *)
  buffer_ref_ok : bool;                          (* av_buffer_ref != NULL *)
  thread_create_ret : Z;                         (* pthread_create *)
  start_time : Z;                                (* av_gettime() *)
  first_state : ReqState;                        (* request seen at the first test *)
  wakeups : list Wakeup
}.

(** [if (hostname && !hostname[0]) hostname = NULL;] *)
Definition normalize_hostname (hostname : option string) : option string :=
  match hostname with
  | Some h => if bool_decide (h = ""%string) then None else Some h
  | None => None
  end.

(** [ijk_tcp_getaddrinfo_nonblock(hostname, servname, hints, &res, timeout,
    int_cb, one_by_one)]: the return value with what is stored in [*res]
    ([None] when the waiter is still waiting at the end of the wakeups),
    and the calling thread's observable actions. *)
Definition ijk_tcp_getaddrinfo_nonblock (hostname : option string)
    (hints_family : Z) (timeout : Z) (one_by_one : Z) (e : ResolveEnv)
  : option (Z * option addrinfo) * list resolve_event :=
  let hostname := normalize_hostname hostname in
  if timeout <=? 0 then
    (Some (gai_call e hostname hints_family), [RGetaddrinfo hostname hints_family])
  else if negb (request_create_ret e =? 0) then (Some (request_create_ret e, None), [])
  else if negb (buffer_ref_ok e) then (Some (AVERROR ENOMEM, None), [])
  else if negb (thread_create_ret e =? 0) then
    (Some (AVERROR (thread_create_ret e), None), [])
  else
    let '(r, evs) := wait_loop (start_time e) timeout (start_time e)
                       (first_state e) (wakeups e) in
    (r, RSpawn (negb (one_by_one =? 0)) :: evs).

(* ------------------------------------------------------------------ *)
(** ** [tcp_open]: resolution or cache hit, then the candidate loop *)

Definition byte_of_Z (z : Z) : Byte.byte :=
  match Byte.of_N (Z.to_N z) with Some b => b | None => Byte.x00 end.

(** The iOS 9 workaround: an IPv6 candidate whose [sin6_port] (bytes 2 and
    3 of [sockaddr_in6]) is 0 gets [htons(port)] written there. *)
Definition ipv6_port_fix (port : Z) (a : addrinfo) : addrinfo :=
  if ai_family a =? AF_INET6 then
    match ai_addr a with
    | Some (b0 :: b1 :: p0 :: p1 :: rest) =>
        if Byte.eqb p0 Byte.x00 && Byte.eqb p1 Byte.x00
        then ai_set_addr a (Some (b0 :: b1 :: byte_of_Z (port / 256)
                                   :: byte_of_Z (port mod 256) :: rest))
        else a
    | _ => a
    end
  else a.

(** The collaborators [tcp_open] calls, as functions of the candidate they
    are called on. *)
Record ConnEnv := mk_ConnEnv {
  env_socket : addrinfo -> Z;                  (* ff_socket: fd or < 0 *)
  env_neterrno : addrinfo -> Z;                (* ff_neterrno() after it failed *)
  env_listen : addrinfo -> Z -> Z;             (* ff_listen(fd, ...) *)
  env_listen_bind : addrinfo -> Z -> Z;        (* ff_listen_bind: client fd or < 0 *)
  env_will_open : addrinfo -> Z;               (* av_application_on_tcp_will_open *)
  env_connect : addrinfo -> Z -> Z -> bool -> Z;
      (* ff_listen_connect(fd, addr, timeout_ms, has_next) *)
  env_did_open : addrinfo -> Z -> Z;           (* av_application_on_tcp_did_open(err) *)
  env_control_ip : addrinfo -> string;         (* control.ip after the hook *)
  env_resolve : Z * option addrinfo;           (* ijk_tcp_getaddrinfo_nonblock: ret, ai *)
  env_time_get : Z;                            (* av_gettime() in get_dns_cache *)
  env_time_set : Z;                            (* av_gettime() in set_dns_cache *)
  env_get_alloc : GetAlloc;                    (* the allocations in get_dns_cache *)
  env_set_alloc : SetAlloc                     (* the allocations in set_dns_cache *)
}.

Inductive tcp_event :=
  | TSocket (cand : addrinfo) (fd : Z)
  | TListen (fd ret : Z)
  | TListenBind (fd ret : Z)
  | TWillOpen (ret : Z)
  | TConnect (cand : addrinfo) (fd : Z) (has_next : bool) (ret : Z)
  | TDidOpen (err ret : Z)
  | TClose (fd : Z).

(** Where one pass from [restart:] ends: the success path, [goto fail]
    (try the next candidate if any) or [goto fail1] (give up). *)
Inductive attempt :=
  | AOk (fd : Z)
  | AFail (ret fd : Z)
  | AFail1 (ret fd : Z).

Definition has_next (a : addrinfo) : bool :=
  match ai_next a with Some _ => true | None => false end.

(** One pass from [fd = ff_socket(...)] to the end of the listen/connect
    dispatch, on the candidate [cur]; the success path may add the
    candidate to the cache. *)
Definition try_candidate (s : TCPContext) (e : ConnEnv) (hit : bool)
    (hostname_bak : string) (cur : addrinfo) (d : dns_dict)
  : attempt * list tcp_event * dns_dict :=
  let fd := env_socket e cur in
  if fd <? 0 then (AFail (env_neterrno e cur) fd, [TSocket cur fd], d)
  else if listen s =? 2 then
    let ret := env_listen e cur fd in
    if ret <? 0 then (AFail1 ret fd, [TSocket cur fd; TListen fd ret], d)
    else (AOk fd, [TSocket cur fd; TListen fd ret], d)
  else if listen s =? 1 then
    let ret := env_listen_bind e cur fd in
    if ret <? 0 then (AFail1 ret fd, [TSocket cur fd; TListenBind fd ret], d)
    else (AOk ret, [TSocket cur fd; TListenBind fd ret], d)
  else
    let ret := env_will_open e cur in
    if negb (ret =? 0) then (AFail1 ret fd, [TSocket cur fd; TWillOpen ret], d)
    else
      let cret := env_connect e cur fd (Z.quot (open_timeout s) 1000) (has_next cur) in
      let evs := [TSocket cur fd; TWillOpen ret; TConnect cur fd (has_next cur) cret] in
      if cret <? 0 then
        let h := env_did_open e cur cret in
        let evs := evs ++ [TDidOpen cret h] in
        if negb (h =? 0) then (AFail1 cret fd, evs, d)
        else if cret =? AVERROR_EXIT then (AFail1 cret fd, evs, d)
        else (AFail cret fd, evs, d)
      else
        let h := env_did_open e cur 0 in
        let evs := evs ++ [TDidOpen 0 h] in
        if negb (h =? 0) then (AFail1 h fd, evs, d)
        else if negb (dns_cache s =? 0) && negb hit
                && negb (bool_decide (env_control_ip e cur = hostname_bak))
                && negb (bool_decide (hostname_bak = ""%string))
        then (AOk fd, evs, set_dns_cache (env_set_alloc e) (env_time_set e) hostname_bak cur d)
        else (AOk fd, evs, d).

Definition close_if_open (fd : Z) : list tcp_event :=
  if 0 <=? fd then [TClose fd] else [].

Inductive loop_result :=
  | LOk (fd : Z)
  | LFail (ret : Z).

(** [restart:] ... [fail:] ... [fail1:] over the list starting at [cur]. *)
Fixpoint connect_loop (s : TCPContext) (e : ConnEnv) (port : Z) (hit : bool)
    (hostname_bak : string) (cur : addrinfo) (d : dns_dict)
  : loop_result * list tcp_event * dns_dict :=
  let c := ipv6_port_fix port cur in
  let '(a, evs, d1) := try_candidate s e hit hostname_bak c d in
  match a with
  | AOk fd => (LOk fd, evs, d1)
  | AFail ret fd =>
      match ai_next cur with
      | Some n =>
          let '(r, evs', d2) := connect_loop s e port hit hostname_bak n d1 in
          (r, evs ++ close_if_open fd ++ evs', d2)
      | None => (LFail ret, evs ++ close_if_open fd, d1)
      end
  | AFail1 ret fd => (LFail ret, evs ++ close_if_open fd, d1)
  end.

(** [if (s->open_timeout < 0) s->open_timeout = 15000000;] *)
Definition tcp_defaults (s0 : TCPContext) : TCPContext :=
  if open_timeout s0 <? 0
  then mk_TCPContext (listen s0) 15000000 (addrinfo_one_by_one s0)
         (addrinfo_timeout s0) (dns_cache s0) (dns_cache_timeout s0)
         (dns_cache_clear s0)
  else s0.

(** [tcp_open] after the mutex-initialisation fallback, from the port
    check on (the URI is already split into [hostname] and [port]); the
    return value, the actions on sockets and the DNS dictionary
    afterwards.  The whole function, fallback included, is
    [tcp_open_checked] below. *)
Definition tcp_open (s0 : TCPContext) (e : ConnEnv) (hostname : string) (port : Z)
    (d : dns_dict) : Z * list tcp_event * dns_dict :=
  let s := tcp_defaults s0 in
  if (port <=? 0) || (65536 <=? port) then (AVERROR EINVAL, [], d) else
  let hostname_bak := hostname in
  let '(hitz, cached, d1) :=
    if negb (dns_cache s =? 0) then get_dns_cache (env_get_alloc e) s (env_time_get e) hostname d
    else (0, None, d) in
  let hit := negb (hitz =? 0) in
  let '(ret, ai) := if hit then (0, cached) else env_resolve e in
  if negb (ret =? 0) then (AVERROR EIO, [], d1) else
  match ai with
  | None => (AVERROR EIO, [], d1)   (* unreachable: a list is stored on success *)
  | Some ai =>
      let '(r, evs, d2) := connect_loop s e port hit hostname_bak ai d1 in
      match r with
      | LOk _ => (0, evs, d2)
      | LFail ret =>
          (ret, evs,
           if negb (dns_cache s =? 0) && hit
           then invalidate_dns_cache hostname_bak d2 else d2)
      end
  end.



(** The candidates a trace creates sockets for, in order. *)
Fixpoint sockets_of (evs : list tcp_event) : list addrinfo :=
  match evs with
  | [] => []
  | TSocket c _ :: evs' => c :: sockets_of evs'
  | _ :: evs' => sockets_of evs'
  end.

(** A candidate that the default connect mode gives up on and passes
    over: no socket, or a refused connect that is not an interruption and
    that the did-open hook accepts. *)
Definition candidate_unreachable (s : TCPContext) (e : ConnEnv) (c : addrinfo) : Prop :=
  env_socket e c < 0 \/
  (0 <= env_socket e c /\ env_will_open e c = 0 /\
   env_connect e c (env_socket e c) (Z.quot (open_timeout s) 1000) (has_next c) < 0 /\
   env_connect e c (env_socket e c) (Z.quot (open_timeout s) 1000) (has_next c)
     <> AVERROR_EXIT /\
   env_did_open e c
     (env_connect e c (env_socket e c) (Z.quot (open_timeout s) 1000) (has_next c)) = 0).

(** A candidate the default connect mode connects to and keeps. *)
Definition candidate_connectable (s : TCPContext) (e : ConnEnv) (c : addrinfo) : Prop :=
  0 <= env_socket e c /\ env_will_open e c = 0 /\
  0 <= env_connect e c (env_socket e c) (Z.quot (open_timeout s) 1000) (has_next c) /\
  env_did_open e c 0 = 0.

(** A candidate on which the default connect mode gives up the whole
    loop ([goto fail1]): a socket, then a refusal of the will-open hook, or
    a failed connect that the did-open hook vetoes or that is an
    interruption. *)
Definition candidate_aborting (s : TCPContext) (e : ConnEnv) (c : addrinfo) : Prop :=
  0 <= env_socket e c /\
  (env_will_open e c <> 0 \/
   (env_will_open e c = 0 /\
    env_connect e c (env_socket e c) (Z.quot (open_timeout s) 1000) (has_next c) < 0 /\
    (env_did_open e c
       (env_connect e c (env_socket e c) (Z.quot (open_timeout s) 1000) (has_next c)) <> 0 \/
     env_connect e c (env_socket e c) (Z.quot (open_timeout s) 1000) (has_next c)
       = AVERROR_EXIT))).

(** The candidates the loop goes through, as it sees them. *)
Definition candidates (port : Z) (a : addrinfo) : list addrinfo :=
  map (ipv6_port_fix port) (ai_nodes a).

(** The list [*res] designates, as the elements it carries. *)
Definition option_elems (o : option addrinfo) : list addrinfo :=
  match o with Some a => ai_elems a | None => [] end.

(** The elements the families of [fams] resolve to, in order. *)
Definition family_results (gai : getaddrinfo_fn) (fams : list Z) : list addrinfo :=
  flat_map (fun f => let '(ret, t) := gai f in
                     if ret =? 0 then option_elems t else []) fams.

(** The last non-zero [getaddrinfo] code among [fams], or [e0]. *)
Definition last_failure (gai : getaddrinfo_fn) (fams : list Z) (e0 : Z) : Z :=
  fold_left (fun acc f => let ret := fst (gai f) in if ret =? 0 then acc else ret)
    fams e0.

(** The descriptors a trace opens ([ff_socket] results >= 0) and closes. *)
Fixpoint opened_fds (evs : list tcp_event) : list Z :=
  match evs with
  | [] => []
  | TSocket _ fd :: evs' => if 0 <=? fd then fd :: opened_fds evs' else opened_fds evs'
  | _ :: evs' => opened_fds evs'
  end.

Fixpoint closed_fds (evs : list tcp_event) : list Z :=
  match evs with
  | [] => []
  | TClose fd :: evs' => fd :: closed_fds evs'
  | _ :: evs' => closed_fds evs'
  end.

(* ------------------------------------------------------------------ *)
(** ** [tcp_getaddrinfo_request_create] *)

(** The fields of a new [TCPAddrinfoRequest] that the function fills. *)
Record TCPAddrinfoRequest := mk_TCPAddrinfoRequest {
  rq_hostname : option string;
  rq_servname : option string;
  rq_hints_family : Z;
  rq_state : ReqState
}.

(** Whether each allocation or initialisation succeeds, in call order. *)
Record AllocEnv := mk_AllocEnv {
  alloc_req_ok : bool;        (* av_mallocz *)
  mutex_init_ok : bool;       (* pthread_mutex_init *)
  cond_init_ok : bool;        (* pthread_cond_init *)
  strdup_host_ok : bool;      (* av_strdup(hostname) *)
  strdup_serv_ok : bool;      (* av_strdup(servname) *)
  buffer_create_ok : bool     (* av_buffer_create *)
}.

(** [tcp_getaddrinfo_request_create(&req, hostname, servname, hints,
    int_cb)]: the return value and the request made.  Note the test after
    duplicating [servname], which reads [req->hostname]. *)
Definition tcp_getaddrinfo_request_create (ae : AllocEnv) (hostname servname : option string)
    (hints_family : option Z) : Z * option TCPAddrinfoRequest :=
  if negb (alloc_req_ok ae) then (AVERROR ENOMEM, None)
  else if negb (mutex_init_ok ae) then (AVERROR ENOMEM, None)
  else if negb (cond_init_ok ae) then (AVERROR ENOMEM, None)
  else
    let req_host := match hostname with
                    | Some h => if strdup_host_ok ae then Some (Some h) else None
                    | None => Some None
                    end in
    match req_host with
    | None => (AVERROR ENOMEM, None)                       (* goto fail *)
    | Some rh =>
        let rs := match servname with
                  | Some sv => if strdup_serv_ok ae then Some sv else None
                  | None => None
                  end in
        let serv_fail := match servname with
                         | Some _ => match rh with None => true | Some _ => false end
                         | None => false
                         end in
        if serv_fail then (AVERROR ENOMEM, None)           (* goto fail *)
        else
          let hf := match hints_family with Some f => f | None => 0 end in
          if negb (buffer_create_ok ae) then (AVERROR ENOMEM, None)
          else (0, Some (mk_TCPAddrinfoRequest rh rs hf req_init))
    end.

(* ------------------------------------------------------------------ *)
(** ** [tcp_read] and [tcp_write] *)

Definition AVIO_FLAG_WRITE : Z := 2.
Definition AVIO_FLAG_NONBLOCK : Z := 8.

(** What the socket layer answers. *)
Record IOEnv := mk_IOEnv {
  io_wait_ret : Z;       (* ff_network_wait_fd_timeout *)
  io_recv_ret : Z;       (* recv *)
  io_send_ret : Z;       (* send *)
  io_neterrno : Z        (* ff_neterrno() *)
}.

Inductive io_event :=
  | IOWait (write : bool) (timeout : Z)
  | IORecv (size : Z)
  | IOSend (size : Z)
  | IODidRead (n : Z).

(** [tcp_read(h, buf, size)] with [h->flags] and [h->rw_timeout]. *)
Definition tcp_read (flags rw_timeout size : Z) (e : IOEnv) : Z * list io_event :=
  let recv_part (pre : list io_event) :=
    let ret := io_recv_ret e in
    (if ret <? 0 then io_neterrno e else ret,
     pre ++ [IORecv size] ++ (if 0 <? ret then [IODidRead ret] else [])) in
  if Z.land flags AVIO_FLAG_NONBLOCK =? 0 then
    let ret := io_wait_ret e in
    if negb (ret =? 0) then (ret, [IOWait false rw_timeout])
    else recv_part [IOWait false rw_timeout]
  else recv_part [].


(* ------------------------------------------------------------------ *)
(** ** Concrete inputs *)

Definition sock_v4 : list Byte.byte := repeat Byte.x01 16.

(** A 28-byte [sockaddr_in6] (len, family, port 443, ...). *)
Definition sock_v6 : list Byte.byte :=
  [Byte.x1c; Byte.x1e; Byte.x01; Byte.xbb] ++ repeat Byte.x02 24.

Definition ai_v4 : addrinfo :=
  mk_addrinfo 0 AF_INET SOCK_STREAM 6 16 (Some sock_v4) None None.

Definition ai_v6 : addrinfo :=
  mk_addrinfo 0 AF_INET6 SOCK_STREAM 6 28 (Some sock_v6) None None.

(** A second IPv4 candidate, and the two-element list [ai_v4 -> ai_v4b]. *)
Definition ai_v4b : addrinfo :=
  mk_addrinfo 0 AF_INET SOCK_STREAM 6 16 (Some (repeat Byte.x03 16)) None None.

Definition ai_pair : addrinfo := ai_set_next ai_v4 (Some ai_v4b).

(** Default connect mode, no DNS cache. *)
Definition ctx_connect : TCPContext := mk_TCPContext 0 (-1) 0 (-1) 0 (-1) 0.

(** An environment whose sockets all open (fd 3), whose first candidate
    (the one with a successor) refuses the connection, and whose did-open
    hook vetoes after a failed connect. *)
Definition env_veto_on_error : ConnEnv :=
  mk_ConnEnv (fun _ => 3) (fun _ => -9) (fun _ _ => 0) (fun _ _ => -1) (fun _ => 0)
    (fun _ _ _ hn => if hn then -61 else 0)
    (fun _ err => if err <? 0 then 1 else 0)
    (fun _ => "93.184.216.34"%string) (0, Some ai_pair) 0 0
    get_alloc_ok set_alloc_ok.

(** An environment where every connect succeeds and the did-open hook vetoes
    the first candidate (the one with a successor). *)
Definition env_veto_on_success : ConnEnv :=
  mk_ConnEnv (fun _ => 3) (fun _ => -9) (fun _ _ => 0) (fun _ _ => -1) (fun _ => 0)
    (fun _ _ _ _ => 0)
    (fun c _ => if has_next c then 1 else 0)
    (fun _ => "93.184.216.34"%string) (0, Some ai_pair) 0 0
    get_alloc_ok set_alloc_ok.

(** As [env_veto_on_error], with a did-open hook that accepts everything. *)
Definition env_failover : ConnEnv :=
  mk_ConnEnv (fun _ => 3) (fun _ => -9) (fun _ _ => 0) (fun _ _ => -1) (fun _ => 0)
    (fun _ _ _ hn => if hn then -61 else 0)
    (fun _ _ => 0)
    (fun _ => "93.184.216.34"%string) (0, Some ai_pair) 0 0
    get_alloc_ok set_alloc_ok.

(** An environment where no socket can be created (ff_neterrno() gives
    ECONNREFUSED), read at [av_gettime() = 20]. *)
Definition env_cache_down : ConnEnv :=
  mk_ConnEnv (fun _ => -1) (fun _ => -61) (fun _ _ => 0) (fun _ _ => -1) (fun _ => 0)
    (fun _ _ _ _ => 0) (fun _ _ => 0)
    (fun _ => "93.184.216.34"%string) (0, Some ai_pair) 20 20
    get_alloc_ok set_alloc_ok.

(** [getaddrinfo] failing for every family. *)
Definition gai_all_fail : getaddrinfo_fn := fun _ => (EAI_NONAME, None).

(** [getaddrinfo] failing for IPv4 and answering [ai_v6] for IPv6. *)
Definition gai_v6_only : getaddrinfo_fn :=
  fun f => if f =? AF_INET then (EAI_NONAME, None) else (0, Some ai_v6).

(** A resolver environment whose calling-thread [getaddrinfo] answers
    [ai_v4]. *)
Definition renv_v4 : ResolveEnv :=
  mk_ResolveEnv (fun _ _ => (0, Some ai_v4)) 0 true 0 1000 req_init [].

Definition ctx_ttl (ttl : Z) : TCPContext := mk_TCPContext 0 (-1) 0 (-1) 1 ttl 0.

Definition dict_one : dns_dict :=
  {[ "example.com"%string := Some (mk_DnsCacheInfo 5 (Some ai_v4)) ]}.

(** The listen modes, with no DNS cache. *)
Definition ctx_listen (mode : Z) : TCPContext := mk_TCPContext mode (-1) 0 (-1) 0 (-1) 0.

(** An environment where every socket opens (fd 3) and both [ff_listen]
    and [ff_listen_bind] fail with EADDRINUSE. *)
Definition env_listen_fail : ConnEnv :=
  mk_ConnEnv (fun _ => 3) (fun _ => -9) (fun _ _ => -48) (fun _ _ => -48) (fun _ => 0)
    (fun _ _ _ _ => 0) (fun _ _ => 0)
    (fun _ => "93.184.216.34"%string) (0, Some ai_pair) 0 0
    get_alloc_ok set_alloc_ok.


(** An environment whose resolution fails with EAI_NONAME. *)
Definition env_unresolved : ConnEnv :=
  mk_ConnEnv (fun _ => 3) (fun _ => -9) (fun _ _ => 0) (fun _ _ => -1) (fun _ => 0)
    (fun _ _ _ _ => 0) (fun _ _ => 0)
    (fun _ => "93.184.216.34"%string) (EAI_NONAME, None) 0 0
    get_alloc_ok set_alloc_ok.

(** A zero-port [sockaddr_in6] candidate. *)
Definition ai_v6_noport : addrinfo :=
  mk_addrinfo 0 AF_INET6 SOCK_STREAM 6 28
    (Some ([Byte.x1c; Byte.x1e; Byte.x00; Byte.x00] ++ repeat Byte.x02 24)) None None.

(* ------------------------------------------------------------------ *)
(** ** Sanity checks on concrete inputs *)

Example get_dns_cache_ex1 :
  fst (fst (get_dns_cache get_alloc_ok (ctx_ttl 2) 1004 "example.com" dict_one)) = 1.
Proof. vm_compute. reflexivity. Qed.

Example get_dns_cache_ex2 :
  fst (fst (get_dns_cache get_alloc_ok (ctx_ttl 2) 2005 "example.com" dict_one)) = 0.
Proof. vm_compute. reflexivity. Qed.

(* ------------------------------------------------------------------ *)
(** ** The DNS cache *)

Lemma copy_sockaddr_length (b : list Byte.byte) :
  length (copy_sockaddr b) = sizeof_sockaddr.
Proof.
  unfold copy_sockaddr. rewrite length_app, repeat_length, length_firstn.
  unfold sizeof_sockaddr. lia.
Qed.

Lemma copy_sockaddr_long (b : list Byte.byte) :
  (sizeof_sockaddr <= length b)%nat -> copy_sockaddr b = firstn sizeof_sockaddr b.
Proof.
  intros H. unfold copy_sockaddr.
  replace (sizeof_sockaddr - length b)%nat with 0%nat by lia.
  apply app_nil_r.
Qed.

Lemma get_dns_cache_guard (s : TCPContext) (now : Z) (h : string) :
  h <> ""%string -> 0 <= now ->
  ((now <? 0) || bool_decide (h = ""%string)) = false.
Proof.
  intros Hh Hn. apply orb_false_iff. split.
  - apply Z.ltb_ge. lia.
  - by apply bool_decide_eq_false.
Qed.

(** C1 against the code.  The option is documented as "dns cache TTL (in
    microseconds)", yet the freshness test compares the age with
    [dns_cache_timeout * 1000]: with a TTL of 1 an entry stored at time 5
    and read at time 505 (age 500, well past the TTL) is still returned.
    The test is also strict: with a TTL of 0 an entry of age 0 is already
    dropped. *)
Lemma get_dns_cache_ttl_scaled :
  get_dns_cache get_alloc_ok (ctx_ttl 1) 505 "example.com" dict_one =
    (1, Some (copy_private_addrinfo ai_v4), dict_one) /\
  dict_one !! "example.com"%string = Some (Some (mk_DnsCacheInfo 5 (Some ai_v4))) /\
  505 - 5 > dns_cache_timeout (ctx_ttl 1) /\
  get_dns_cache get_alloc_ok (ctx_ttl 0) 5 "example.com" dict_one =
    (0, None, <["example.com"%string := None]> dict_one) /\
  5 - 5 <= dns_cache_timeout (ctx_ttl 0).
Proof.
  split; [vm_compute; reflexivity|]. split; [vm_compute; reflexivity|].
  split; [simpl; lia|]. split; [vm_compute; reflexivity|]. simpl; lia.
Qed.

(** The entry [set_dns_cache] stores. *)
Lemma set_dns_cache_entry (sa : SetAlloc) (now : Z) (h : string) (r : addrinfo)
    (b : list Byte.byte) (d : dns_dict) :
  set_info_ok sa && set_res_ok sa && set_addr_ok sa = true ->
  h <> ""%string -> 0 <= now -> ai_addr r = Some b ->
  cache_entry (set_dns_cache sa now h r d) h =
    Some (mk_DnsCacheInfo now (Some (copy_private_addrinfo r))).
Proof.
  intros Ha Hh Hn Hb. unfold set_dns_cache.
  rewrite (get_dns_cache_guard (ctx_ttl 0) now h Hh Hn), Hb, Ha.
  unfold cache_entry. by rewrite lookup_insert_eq.
Qed.

Lemma sockets_of_app (l1 l2 : list tcp_event) :
  sockets_of (l1 ++ l2) = sockets_of l1 ++ sockets_of l2.
Proof.
  induction l1 as [|ev l1 IH]; [reflexivity|].
  destruct ev; simpl; rewrite ?IH; reflexivity.
Qed.

Lemma sockets_of_close (fd : Z) : sockets_of (close_if_open fd) = [].
Proof. unfold close_if_open. by case_match. Qed.

(** One unfolding of the candidate loop. *)
Lemma connect_loop_eq (s : TCPContext) (e : ConnEnv) (port : Z) (hit : bool)
    (hb : string) (cur : addrinfo) (d : dns_dict) :
  connect_loop s e port hit hb cur d =
    let '(a, evs, d1) := try_candidate s e hit hb (ipv6_port_fix port cur) d in
    match a with
    | AOk fd => (LOk fd, evs, d1)
    | AFail ret fd =>
        match ai_next cur with
        | Some n =>
            let '(r, evs', d2) := connect_loop s e port hit hb n d1 in
            (r, evs ++ close_if_open fd ++ evs', d2)
        | None => (LFail ret, evs ++ close_if_open fd, d1)
        end
    | AFail1 ret fd => (LFail ret, evs ++ close_if_open fd, d1)
    end.
Proof. destruct cur; reflexivity. Qed.

(** Every pass of the loop body creates exactly one socket, first. *)
Lemma try_candidate_sockets (s : TCPContext) (e : ConnEnv) (hit : bool)
    (hb : string) (c : addrinfo) (d : dns_dict) :
  sockets_of (snd (fst (try_candidate s e hit hb c d))) = [c].
Proof. unfold try_candidate. repeat case_match; reflexivity. Qed.

(** C9.  A hit of [get_dns_cache] (whatever its allocations would have
    done) yields a single record ([ai_next] and [ai_canonname] are NULL),
    so the connect loop on it makes exactly one attempt, and a failed
    attempt ends the loop with a failure. *)
Theorem get_dns_cache_hit_single (ga : GetAlloc) (s : TCPContext) (now : Z) (h : string)
    (d d' : dns_dict) (ai : addrinfo) :
  get_dns_cache ga s now h d = (1, Some ai, d') ->
  ai_next ai = None /\ ai_canonname ai = None /\ ai_nodes ai = [ai] /\
  (forall s' e port hit hb d0,
     length (sockets_of (snd (fst (connect_loop s' e port hit hb ai d0)))) = 1%nat /\
     ((forall fd, fst (fst (try_candidate s' e hit hb (ipv6_port_fix port ai) d0)) <> AOk fd) ->
      exists ret, fst (fst (connect_loop s' e port hit hb ai d0)) = LFail ret)).
Proof.
  intros H.
  assert (Hai : exists r, ai = copy_private_addrinfo r).
  { unfold get_dns_cache in H. repeat case_match; simplify_eq; eauto. }
  destruct Hai as [r ->]. split; [reflexivity|]. split; [reflexivity|].
  split; [reflexivity|].
  intros s' e port hit hb d0. rewrite connect_loop_eq.
  destruct (try_candidate s' e hit hb _ d0) as [[a evs] d1] eqn:Ht.
  pose proof (try_candidate_sockets s' e hit hb
                (ipv6_port_fix port (copy_private_addrinfo r)) d0) as Hs.
  rewrite Ht in Hs. simpl in Hs.
  destruct a as [fd|ret fd|ret fd]; simpl;
    rewrite ?sockets_of_app, ?sockets_of_close, Hs; simpl;
    (split; [reflexivity|]); intros Hf; eauto.
  exfalso. apply (Hf fd). reflexivity.
Qed.

Lemma get_dns_cache_hit_inv (ga : GetAlloc) (s : TCPContext) (now : Z) (h : string)
    (d d' : dns_dict) (ai : addrinfo) :
  get_dns_cache ga s now h d = (1, Some ai, d') ->
  exists info r, cache_entry d h = Some info /\ dns_res info = Some r /\
    ai = copy_private_addrinfo r /\ d' = d.
Proof.
  unfold get_dns_cache, cache_entry. intros H.
  repeat case_match; simplify_eq; eauto 10.
Qed.

(** C10.  [set_dns_cache] and the copy made by [get_dns_cache] both keep
    only [sizeof(struct sockaddr)] = 16 bytes of the endpoint while keeping
    the original [ai_addrlen]: for an endpoint longer than 16 bytes (a
    28-byte [sockaddr_in6]) the stored and the returned records hold only
    its first 16 bytes, which differ from the endpoint.  The store is one
    whose allocations succeed (otherwise nothing is stored). *)
Theorem store_lookup_truncates_endpoint (ga : GetAlloc) (sa : SetAlloc) (s : TCPContext)
    (now1 now2 : Z) (h : string) (r : addrinfo) (b : list Byte.byte) (d d' : dns_dict)
    (ai : addrinfo) :
  set_info_ok sa && set_res_ok sa && set_addr_ok sa = true ->
  h <> ""%string -> 0 <= now1 -> ai_addr r = Some b ->
  (sizeof_sockaddr < length b)%nat ->
  get_dns_cache ga s now2 h (set_dns_cache sa now1 h r d) = (1, Some ai, d') ->
  (exists r', cache_entry (set_dns_cache sa now1 h r d) h =
                Some (mk_DnsCacheInfo now1 (Some r')) /\
              ai_addr r' = Some (firstn sizeof_sockaddr b) /\
              ai_addrlen r' = ai_addrlen r) /\
  ai_addr ai = Some (firstn sizeof_sockaddr b) /\ ai_addrlen ai = ai_addrlen r /\
  firstn sizeof_sockaddr b <> b.
Proof.
  intros Ha Hh Hn Hb Hlen Hget.
  pose proof (set_dns_cache_entry sa now1 h r b d Ha Hh Hn Hb) as Hset.
  assert (Hcopy : copy_sockaddr b = firstn sizeof_sockaddr b)
    by (apply copy_sockaddr_long; lia).
  split.
  { exists (copy_private_addrinfo r). split; [exact Hset|].
    simpl. rewrite Hb. simpl. rewrite Hcopy. split; reflexivity. }
  apply get_dns_cache_hit_inv in Hget as (info & r0 & Hinfo & Hr0 & -> & _).
  rewrite Hset in Hinfo. injection Hinfo as <-. simpl in Hr0.
  injection Hr0 as <-. simpl. rewrite Hb. simpl. rewrite Hcopy.
  rewrite copy_sockaddr_long
    by (rewrite length_firstn; unfold sizeof_sockaddr in *; lia).
  rewrite firstn_firstn, Nat.min_id.
  split; [reflexivity|]. split; [reflexivity|].
  intros Heq. assert (Hl : length (firstn sizeof_sockaddr b) = length b) by (rewrite Heq; reflexivity).
  rewrite length_firstn in Hl. lia.
Qed.

Lemma store_lookup_truncates_endpoint_witness :
  (set_info_ok set_alloc_ok && set_res_ok set_alloc_ok && set_addr_ok set_alloc_ok = true /\
   ("example.com"%string <> ""%string) /\ 0 <= 10 /\ ai_addr ai_v6 = Some sock_v6 /\
   (sizeof_sockaddr < length sock_v6)%nat /\
   get_dns_cache get_alloc_ok (ctx_ttl (-1)) 20 "example.com"
     (set_dns_cache set_alloc_ok 10 "example.com" ai_v6 ∅) =
     (1, Some (copy_private_addrinfo (copy_private_addrinfo ai_v6)),
      set_dns_cache set_alloc_ok 10 "example.com" ai_v6 ∅)) /\
  ai_addr (copy_private_addrinfo (copy_private_addrinfo ai_v6)) =
    Some (firstn sizeof_sockaddr sock_v6).
Proof.
  assert (Hget : get_dns_cache get_alloc_ok (ctx_ttl (-1)) 20 "example.com"
                   (set_dns_cache set_alloc_ok 10 "example.com" ai_v6 ∅) =
                 (1, Some (copy_private_addrinfo (copy_private_addrinfo ai_v6)),
                  set_dns_cache set_alloc_ok 10 "example.com" ai_v6 ∅))
    by (vm_compute; reflexivity).
  split.
  - split; [reflexivity|]. split; [discriminate|]. split; [lia|]. split; [reflexivity|].
    split; [|exact Hget]. unfold sizeof_sockaddr, sock_v6. simpl. lia.
  - apply (store_lookup_truncates_endpoint get_alloc_ok set_alloc_ok (ctx_ttl (-1)) 10 20
             "example.com" ai_v6 sock_v6 ∅ _ _ eq_refl ltac:(discriminate) ltac:(lia) eq_refl
             ltac:(unfold sizeof_sockaddr, sock_v6; simpl; lia) Hget).
Defined.

(* ------------------------------------------------------------------ *)
(** ** The candidate loop of [tcp_open] *)

Lemma last_default_irrel {A} (l : list A) (x y : A) :
  l <> [] -> List.last l x = List.last l y.
Proof.
  induction l as [|b l IH]; [congruence|]. intros _.
  destruct l as [|c l]; [reflexivity|]. apply IH. discriminate.
Qed.

Lemma last_cons_ne {A} (x : A) (l : list A) (y : A) :
  l <> [] -> List.last (x :: l) y = List.last l y.
Proof. destruct l; [congruence|reflexivity]. Qed.

Lemma removelast_cons_ne {A} (x : A) (l : list A) :
  l <> [] -> removelast (x :: l) = x :: removelast l.
Proof. destruct l; [congruence|reflexivity]. Qed.

(** Induction along [ai_next]. *)
Lemma addrinfo_next_ind (P : addrinfo -> Prop) :
  (forall a, ai_next a = None -> P a) ->
  (forall a n, ai_next a = Some n -> P n -> P a) ->
  forall a, P a.
Proof.
  intros Hlast Hstep. fix IH 1.
  intros [f fa st p l ad cn [n|]].
  - apply (Hstep _ n); [reflexivity | apply IH].
  - apply Hlast. reflexivity.
Qed.

Lemma ipv6_port_fix_next (port : Z) (a : addrinfo) :
  ai_next (ipv6_port_fix port a) = ai_next a.
Proof. unfold ipv6_port_fix. repeat case_match; reflexivity. Qed.

Lemma has_next_port_fix (port : Z) (a : addrinfo) :
  has_next (ipv6_port_fix port a) = has_next a.
Proof. unfold has_next. by rewrite ipv6_port_fix_next. Qed.

Lemma candidates_last (port : Z) (a : addrinfo) :
  ai_next a = None -> candidates port a = [ipv6_port_fix port a].
Proof. intros H. unfold candidates. destruct a; simpl in *; subst; reflexivity. Qed.

Lemma candidates_step (port : Z) (a n : addrinfo) :
  ai_next a = Some n -> candidates port a = ipv6_port_fix port a :: candidates port n.
Proof. intros H. unfold candidates. destruct a; simpl in *; subst; reflexivity. Qed.

Lemma candidates_nonempty (port : Z) (a : addrinfo) : candidates port a <> [].
Proof. unfold candidates. destruct a; discriminate. Qed.

(** In the default mode an unreachable candidate ends its pass at
    [goto fail] with its socket, leaving the cache alone. *)
Lemma try_candidate_unreachable (s : TCPContext) (e : ConnEnv) (hit : bool)
    (hb : string) (c : addrinfo) (d : dns_dict) :
  listen s = 0 -> candidate_unreachable s e c ->
  exists ret, fst (fst (try_candidate s e hit hb c d)) = AFail ret (env_socket e c) /\
              snd (try_candidate s e hit hb c d) = d.
Proof.
  intros Hl Hu. unfold try_candidate. rewrite Hl. simpl.
  destruct Hu as [Hs | (Hs & Hw & Hc & Hx & Hd)].
  - apply Z.ltb_lt in Hs. rewrite Hs. eauto.
  - destruct (Z.ltb_spec (env_socket e c) 0); [lia|].
    rewrite Hw. simpl.
    destruct (Z.ltb_spec (env_connect e c (env_socket e c) (Z.quot (open_timeout s) 1000)
                            (has_next c)) 0); [|lia].
    rewrite Hd. simpl. apply Z.eqb_neq in Hx. rewrite Hx. eauto.
Qed.

Lemma try_candidate_connectable (s : TCPContext) (e : ConnEnv) (hit : bool)
    (hb : string) (c : addrinfo) (d : dns_dict) :
  listen s = 0 -> candidate_connectable s e c ->
  fst (fst (try_candidate s e hit hb c d)) = AOk (env_socket e c).
Proof.
  intros Hl (Hs & Hw & Hc & Hd). unfold try_candidate. rewrite Hl. simpl.
  destruct (Z.ltb_spec (env_socket e c) 0); [lia|].
  rewrite Hw. simpl.
  destruct (Z.ltb_spec (env_connect e c (env_socket e c) (Z.quot (open_timeout s) 1000)
                          (has_next c)) 0); [lia|].
  rewrite Hd. simpl. repeat case_match; reflexivity.
Qed.

(** Failover in the default connect mode: when every candidate but the
    last is unreachable and the last one connects with the hooks
    accepting, the loop tries the candidates in list order, closes each
    failed candidate's socket right after its attempt, and succeeds on the
    last one with its socket. *)
Lemma connect_failover (s : TCPContext) (e : ConnEnv) (port : Z) (hit : bool)
    (hb : string) (d : dns_dict) (a : addrinfo) :
  listen s = 0 ->
  Forall (candidate_unreachable s e) (removelast (candidates port a)) ->
  candidate_connectable s e (List.last (candidates port a) a) ->
  let clast := List.last (candidates port a) a in
  let evs := flat_map (fun c => snd (fst (try_candidate s e hit hb c d))
                                  ++ close_if_open (env_socket e c))
               (removelast (candidates port a))
             ++ snd (fst (try_candidate s e hit hb clast d)) in
  connect_loop s e port hit hb a d =
    (LOk (env_socket e clast), evs, snd (try_candidate s e hit hb clast d)) /\
  sockets_of evs = candidates port a.
Proof.
  intros Hl. revert a.
  apply (addrinfo_next_ind (fun a =>
    Forall (candidate_unreachable s e) (removelast (candidates port a)) ->
    candidate_connectable s e (List.last (candidates port a) a) -> _)).
  - intros a Hn _ Hc. rewrite (candidates_last port a Hn) in *. simpl in *.
    pose proof (try_candidate_connectable s e hit hb _ d Hl Hc) as Hok.
    rewrite connect_loop_eq.
    destruct (try_candidate s e hit hb (ipv6_port_fix port a) d) as [[r evs] d1] eqn:Ht.
    simpl in Hok. subst r. simpl. split; [reflexivity|].
    pose proof (try_candidate_sockets s e hit hb (ipv6_port_fix port a) d) as Hs.
    rewrite Ht in Hs. exact Hs.
  - intros a n Hn IH Hu Hc.
    pose proof (candidates_nonempty port n) as Hne.
    rewrite (candidates_step port a n Hn) in Hu, Hc |- *.
    rewrite (removelast_cons_ne _ _ Hne) in Hu |- *.
    rewrite (last_cons_ne _ _ _ Hne), (last_default_irrel _ a n Hne) in Hc |- *.
    apply Forall_cons in Hu as [Hua Hus].
    destruct (IH Hus Hc) as [Hloop Hsock]. clear IH.
    destruct (try_candidate_unreachable s e hit hb (ipv6_port_fix port a) d Hl Hua)
      as (ret & Ha & Hd).
    rewrite connect_loop_eq.
    destruct (try_candidate s e hit hb (ipv6_port_fix port a) d) as [[r evs] d1] eqn:Ht.
    simpl in Ha, Hd. subst r d1. rewrite Hn, Hloop. simpl.
    rewrite Ht. simpl. split; [rewrite <- !app_assoc; reflexivity|].
    pose proof (try_candidate_sockets s e hit hb (ipv6_port_fix port a) d) as Hs.
    rewrite Ht in Hs. simpl in Hs.
    rewrite <- !app_assoc, sockets_of_app, sockets_of_app, sockets_of_close, Hs.
    rewrite Hsock. reflexivity.
Qed.

Lemma try_candidate_aborting (s : TCPContext) (e : ConnEnv) (hit : bool)
    (hb : string) (c : addrinfo) (d : dns_dict) :
  listen s = 0 -> candidate_aborting s e c ->
  exists ret, fst (fst (try_candidate s e hit hb c d)) = AFail1 ret (env_socket e c) /\
              snd (try_candidate s e hit hb c d) = d.
Proof.
  intros Hl (Hs & Hab). unfold try_candidate. rewrite Hl. simpl.
  destruct (Z.ltb_spec (env_socket e c) 0); [lia|].
  destruct Hab as [Hw | (Hw & Hc & Hx)].
  - apply Z.eqb_neq in Hw. rewrite Hw. simpl. eauto.
  - rewrite Hw. simpl.
    destruct (Z.ltb_spec (env_connect e c (env_socket e c) (Z.quot (open_timeout s) 1000)
                            (has_next c)) 0); [|lia].
    destruct Hx as [Hd | He].
    + apply Z.eqb_neq in Hd. rewrite Hd. simpl. eauto.
    + rewrite He. destruct (env_did_open e c AVERROR_EXIT =? 0); simpl;
        rewrite ?Z.eqb_refl; simpl; eauto.
Qed.

(** A pass that gives up ends the loop on the spot, with its socket. *)
Lemma connect_loop_abort_first (s : TCPContext) (e : ConnEnv) (port : Z) (hit : bool)
    (hb : string) (d : dns_dict) (a : addrinfo) :
  listen s = 0 -> candidate_aborting s e (ipv6_port_fix port a) ->
  exists ret evs, connect_loop s e port hit hb a d = (LFail ret, evs, d) /\
                  sockets_of evs = [ipv6_port_fix port a].
Proof.
  intros Hl Hab.
  destruct (try_candidate_aborting s e hit hb (ipv6_port_fix port a) d Hl Hab)
    as (ret & Ha & Hd).
  pose proof (try_candidate_sockets s e hit hb (ipv6_port_fix port a) d) as Hs.
  rewrite connect_loop_eq.
  destruct (try_candidate s e hit hb (ipv6_port_fix port a) d) as [[r evs] d1] eqn:Ht.
  simpl in Ha, Hd, Hs. subst r d1.
  exists ret, (evs ++ close_if_open (env_socket e (ipv6_port_fix port a))).
  split; [reflexivity|]. rewrite sockets_of_app, sockets_of_close, app_nil_r. exact Hs.
Qed.

(** C2 (amended).  In the default connect mode the loop tries the
    candidates in list order and creates one socket per attempt.  (1) When
    every candidate but the last is unreachable (no socket, or a refused
    connect that is not an interruption and that the did-open hook
    accepts) and the last one connects with the hooks accepting, it closes
    each failed candidate's socket right after its attempt and succeeds on
    the last one with its socket.  (2) When the candidates before the k-th
    are unreachable and the k-th gets a socket but the will-open hook
    refuses it, or its connect fails and the did-open hook vetoes the
    failure or the failure is [AVERROR_EXIT], the loop fails there: it
    makes no attempt on the candidates after the k-th, even when some
    remain, and leaves the cache alone. *)
Theorem connect_failover_abort (s : TCPContext) (e : ConnEnv) (port : Z) (hit : bool)
    (hb : string) (d : dns_dict) (a : addrinfo) :
  listen s = 0 ->
  (Forall (candidate_unreachable s e) (removelast (candidates port a)) ->
   candidate_connectable s e (List.last (candidates port a) a) ->
   let clast := List.last (candidates port a) a in
   let evs := flat_map (fun c => snd (fst (try_candidate s e hit hb c d))
                                   ++ close_if_open (env_socket e c))
                (removelast (candidates port a))
              ++ snd (fst (try_candidate s e hit hb clast d)) in
   connect_loop s e port hit hb a d =
     (LOk (env_socket e clast), evs, snd (try_candidate s e hit hb clast d)) /\
   sockets_of evs = candidates port a) /\
  (forall (k : nat) (c : addrinfo),
     nth_error (candidates port a) k = Some c ->
     Forall (candidate_unreachable s e) (firstn k (candidates port a)) ->
     candidate_aborting s e c ->
     exists ret evs, connect_loop s e port hit hb a d = (LFail ret, evs, d) /\
                     sockets_of evs = firstn (S k) (candidates port a)).
Proof.
  intros Hl. split; [exact (connect_failover s e port hit hb d a Hl)|].
  revert a.
  apply (addrinfo_next_ind (fun a => forall (k : nat) (c : addrinfo),
     nth_error (candidates port a) k = Some c ->
     Forall (candidate_unreachable s e) (firstn k (candidates port a)) ->
     candidate_aborting s e c ->
     exists ret evs, connect_loop s e port hit hb a d = (LFail ret, evs, d) /\
                     sockets_of evs = firstn (S k) (candidates port a))).
  - intros a Hn k c Hk _ Hab. rewrite (candidates_last port a Hn) in Hk |- *.
    destruct k as [|[|k]]; simpl in Hk; try discriminate.
    injection Hk as <-. exact (connect_loop_abort_first s e port hit hb d a Hl Hab).
  - intros a n Hn IH k c Hk Hu Hab. rewrite (candidates_step port a n Hn) in Hk, Hu |- *.
    destruct k as [|k].
    + simpl in Hk. injection Hk as <-.
      exact (connect_loop_abort_first s e port hit hb d a Hl Hab).
    + simpl in Hk, Hu. apply Forall_cons in Hu as [Hua Hus].
      destruct (IH k c Hk Hus Hab) as (ret & evs' & Hloop & Hs').
      destruct (try_candidate_unreachable s e hit hb (ipv6_port_fix port a) d Hl Hua)
        as (r0 & Ha & Hd).
      pose proof (try_candidate_sockets s e hit hb (ipv6_port_fix port a) d) as Hs.
      rewrite connect_loop_eq.
      destruct (try_candidate s e hit hb (ipv6_port_fix port a) d) as [[r evs] d1] eqn:Ht.
      simpl in Ha, Hd, Hs. subst r d1. rewrite Hn, Hloop.
      exists ret, (evs ++ close_if_open (env_socket e (ipv6_port_fix port a)) ++ evs').
      split; [reflexivity|].
      rewrite !sockets_of_app, sockets_of_close, Hs, Hs'. reflexivity.
Qed.

Lemma connect_failover_abort_witness :
  fst (fst (connect_loop ctx_connect env_failover 443 false "example.com" ai_pair ∅))
    = LOk 3 /\
  sockets_of (snd (fst (connect_loop ctx_connect env_failover 443 false "example.com"
                          ai_pair ∅))) = candidates 443 ai_pair /\
  exists ret evs,
    connect_loop ctx_connect env_veto_on_error 443 false "example.com" ai_pair ∅ =
      (LFail ret, evs, ∅) /\
    sockets_of evs = firstn 1 (candidates 443 ai_pair).
Proof.
  assert (Hu : Forall (candidate_unreachable ctx_connect env_failover)
                 (removelast (candidates 443 ai_pair))).
  { vm_compute. constructor; [|constructor]. right. vm_compute.
    repeat split; discriminate. }
  assert (Hc : candidate_connectable ctx_connect env_failover
                 (List.last (candidates 443 ai_pair) ai_pair)).
  { vm_compute. repeat split; discriminate. }
  assert (Hab : candidate_aborting ctx_connect env_veto_on_error ai_pair).
  { split; [simpl; lia|]. right. split; [reflexivity|].
    split; [simpl; lia | left; simpl; discriminate]. }
  destruct (connect_failover_abort ctx_connect env_failover 443 false "example.com" ∅ ai_pair
              eq_refl) as [Hf _].
  destruct (Hf Hu Hc) as [Heq Hs].
  destruct (connect_failover_abort ctx_connect env_veto_on_error 443 false "example.com" ∅
              ai_pair eq_refl) as [_ Ha].
  rewrite Heq. split; [reflexivity|]. split; [exact Hs|].
  exact (Ha 0%nat ai_pair ltac:(vm_compute; reflexivity) ltac:(simpl; constructor) Hab).
Defined.

(** C2 as stated fails: the second candidate of [ai_pair] is connectable
    and the first is refused, yet [tcp_open] gives up after the first one
    because the did-open hook vetoes the failed connect ([goto fail1]). *)
Lemma connect_failover_claim_fails :
  candidate_connectable (tcp_defaults ctx_connect) env_veto_on_error
    (List.last (candidates 443 ai_pair) ai_pair) /\
  tcp_open ctx_connect env_veto_on_error "example.com" 443 ∅ =
    (-61, [TSocket ai_pair 3; TWillOpen 0; TConnect ai_pair 3 true (-61);
           TDidOpen (-61) 1; TClose 3], ∅).
Proof.
  split.
  - vm_compute. repeat split; discriminate.
  - vm_compute. reflexivity.
Qed.

(** C3 (amended).  In the default connect mode, when the connect to the
    current candidate succeeds but the did-open hook vetoes it, the loop
    closes the socket and gives up with the hook's value ([goto fail1]),
    whether or not more candidates remain. *)
Theorem did_open_veto_aborts (s : TCPContext) (e : ConnEnv) (port : Z) (hit : bool)
    (hb : string) (d : dns_dict) (a c : addrinfo) (fd cret h : Z) :
  listen s = 0 -> c = ipv6_port_fix port a ->
  env_socket e c = fd -> 0 <= fd -> env_will_open e c = 0 ->
  env_connect e c fd (Z.quot (open_timeout s) 1000) (has_next c) = cret -> 0 <= cret ->
  env_did_open e c 0 = h -> h <> 0 ->
  connect_loop s e port hit hb a d =
    (LFail h, [TSocket c fd; TWillOpen 0; TConnect c fd (has_next c) cret;
               TDidOpen 0 h; TClose fd], d).
Proof.
  intros Hl -> Hfd Hfd0 Hw Hcr Hcr0 Hh Hh0.
  rewrite connect_loop_eq. unfold try_candidate.
  rewrite Hl, Hfd, Hw, Hcr, Hh. simpl.
  destruct (Z.ltb_spec fd 0); [lia|].
  destruct (Z.ltb_spec cret 0); [lia|].
  apply Z.eqb_neq in Hh0. rewrite Hh0. simpl.
  unfold close_if_open. destruct (Z.leb_spec 0 fd); [reflexivity | lia].
Qed.

Lemma did_open_veto_aborts_witness :
  connect_loop (tcp_defaults ctx_connect) env_veto_on_success 443 false "example.com"
    ai_pair ∅ =
    (LFail 1, [TSocket ai_pair 3; TWillOpen 0; TConnect ai_pair 3 true 0;
               TDidOpen 0 1; TClose 3], ∅).
Proof.
  apply (did_open_veto_aborts (tcp_defaults ctx_connect) env_veto_on_success 443 false
           "example.com" ∅ ai_pair ai_pair 3 0 1);
    try reflexivity; try lia; discriminate.
Defined.

(** C3 as stated fails: on [ai_pair] the first connect succeeds, the
    did-open hook vetoes it, and [tcp_open] fails with the hook's value
    without trying the second candidate. *)
Lemma did_open_veto_claim_fails :
  has_next ai_pair = true /\
  tcp_open ctx_connect env_veto_on_success "example.com" 443 ∅ =
    (1, [TSocket ai_pair 3; TWillOpen 0; TConnect ai_pair 3 true 0;
         TDidOpen 0 1; TClose 3], ∅).
Proof. split; vm_compute; reflexivity. Qed.

(* ------------------------------------------------------------------ *)
(** ** The cache on the paths of [tcp_open] *)

Lemma dns_cache_defaults (s : TCPContext) : dns_cache (tcp_defaults s) = dns_cache s.
Proof. unfold tcp_defaults. by case_match. Qed.

Lemma get_dns_cache_defaults (ga : GetAlloc) (s : TCPContext) :
  get_dns_cache ga (tcp_defaults s) = get_dns_cache ga s.
Proof. unfold tcp_defaults. by case_match. Qed.

Lemma invalidate_dns_cache_entry (h : string) (d : dns_dict) :
  cache_entry (invalidate_dns_cache h d) h = None.
Proof.
  unfold invalidate_dns_cache, cache_entry.
  destruct (d !! h) as [[i|]|] eqn:E; rewrite ?lookup_insert_eq, ?E; reflexivity.
Qed.

(** C5.  When the DNS cache is on and the candidate came from a cache hit,
    a failed connect loop makes [tcp_open] return the loop's own error
    code, unchanged, with the hostname's cache entry removed. *)
Theorem cache_hit_failure_invalidates (s : TCPContext) (e : ConnEnv) (h : string)
    (port : Z) (d d1 d2 : dns_dict) (ai : addrinfo) (r : Z) (evs : list tcp_event) :
  dns_cache s <> 0 -> 0 < port < 65536 ->
  get_dns_cache (env_get_alloc e) s (env_time_get e) h d = (1, Some ai, d1) ->
  connect_loop (tcp_defaults s) e port true h ai d1 = (LFail r, evs, d2) ->
  tcp_open s e h port d = (r, evs, invalidate_dns_cache h d2) /\
  cache_entry (invalidate_dns_cache h d2) h = None.
Proof.
  intros Hc Hp Hget Hloop. split; [|apply invalidate_dns_cache_entry].
  unfold tcp_open.
  destruct (Z.leb_spec port 0); [lia|]. destruct (Z.leb_spec 65536 port); [lia|].
  simpl. rewrite dns_cache_defaults, get_dns_cache_defaults.
  apply Z.eqb_neq in Hc. rewrite Hc. simpl. rewrite Hget. simpl.
  rewrite Hloop. reflexivity.
Qed.

Lemma cache_hit_failure_invalidates_witness :
  tcp_open (ctx_ttl (-1)) env_cache_down "example.com" 443 dict_one =
    (-61, [TSocket (ipv6_port_fix 443 (copy_private_addrinfo ai_v4)) (-1)],
     invalidate_dns_cache "example.com" dict_one) /\
  cache_entry (invalidate_dns_cache "example.com" dict_one) "example.com" = None.
Proof.
  apply (cache_hit_failure_invalidates (ctx_ttl (-1)) env_cache_down "example.com" 443
           dict_one dict_one dict_one (copy_private_addrinfo ai_v4));
    [discriminate | lia | vm_compute; reflexivity | vm_compute; reflexivity].
Defined.

Lemma get_dns_cache_hit_single_witness :
  ai_nodes (copy_private_addrinfo ai_v4) = [copy_private_addrinfo ai_v4].
Proof.
  assert (Hget : get_dns_cache get_alloc_ok (ctx_ttl (-1)) 20 "example.com" dict_one =
                 (1, Some (copy_private_addrinfo ai_v4), dict_one))
    by (vm_compute; reflexivity).
  destruct (get_dns_cache_hit_single get_alloc_ok (ctx_ttl (-1)) 20 "example.com" dict_one
              dict_one
              (copy_private_addrinfo ai_v4) Hget) as (_ & _ & Hn & _).
  exact Hn.
Defined.

(* ------------------------------------------------------------------ *)
(** ** The resolver *)

(** C4 (amended).  When the wait loop sees the request finished or the
    deadline passed, it returns success with the list stored so far if
    there is one; with no list it returns the last [getaddrinfo] error the
    worker recorded, and the aborted code [AVERROR_EXIT] (a negative
    value) only when none was recorded. *)
Theorem wait_loop_consume (start timeout now : Z) (st : ReqState) (ws : list Wakeup) :
  finished st = true \/ start + timeout < now ->
  wait_loop start timeout now st ws =
    (Some (match req_res st with
           | Some r => (0, Some r)
           | None => (if last_error st =? 0 then AVERROR_EXIT else last_error st, None)
           end), []) /\
  AVERROR_EXIT < 0.
Proof.
  intros H. split; [|unfold AVERROR_EXIT; lia].
  destruct ws; simpl;
    (destruct H as [-> | H]; [reflexivity|]);
    (replace (start + timeout <? now) with true by (symmetry; apply Z.ltb_lt; exact H));
    rewrite orb_true_r; reflexivity.
Qed.

Lemma wait_loop_consume_witness :
  wait_loop 0 1000 2000 (mk_ReqState false (Some ai_v4) 0) [] =
    (Some (0, Some ai_v4), []) /\ AVERROR_EXIT < 0.
Proof.
  apply (wait_loop_consume 0 1000 2000 (mk_ReqState false (Some ai_v4) 0) []).
  right. lia.
Defined.

(** C4 as stated fails: in one-by-one mode with both families failing,
    the worker finishes with no list, and the wait loop returns the
    platform code [EAI_NONAME], not the aborted code. *)
Lemma wait_loop_consume_claim_fails :
  let st := List.last (snd (tcp_getaddrinfo_one_by_one_worker gai_all_fail req_init))
              req_init in
  finished st = true /\ req_res st = None /\
  fst (wait_loop 0 1000000 0 st []) = Some (EAI_NONAME, None) /\
  EAI_NONAME <> AVERROR_EXIT.
Proof. vm_compute. repeat split; discriminate. Qed.

(** C6.  When [ff_check_interrupt] reports an interruption at a wakeup,
    the wait loop returns [AVERROR_EXIT] at that wakeup, whatever the
    request state (a worker still running, a partial list stored) and
    whatever the later wakeups would have been. *)
Theorem wait_loop_interrupt (start timeout now : Z) (st : ReqState) (w : Wakeup)
    (ws : list Wakeup) :
  finished st = false -> now <= start + timeout -> interrupted w = true ->
  fst (wait_loop start timeout now st (w :: ws)) = Some (AVERROR_EXIT, None).
Proof.
  intros Hf Hn Hi. simpl. rewrite Hf.
  replace (start + timeout <? now) with false by (symmetry; apply Z.ltb_ge; lia).
  simpl. rewrite Hi. by case_match.
Qed.

Lemma wait_loop_interrupt_witness :
  fst (wait_loop 0 1000000 0 (mk_ReqState false (Some ai_v4) 0)
         [mk_Wakeup ETIMEDOUT true 100000 (mk_ReqState true (Some ai_v4) 0)]) =
    Some (AVERROR_EXIT, None).
Proof. apply wait_loop_interrupt; simpl; try reflexivity; lia. Defined.

(** C8.  With [timeout <= 0] the resolver calls [getaddrinfo] once on the
    calling thread (with an empty hostname turned into NULL) and returns
    its result; it spawns no worker and never checks for interruption. *)
Theorem resolve_sync_path (hostname : option string) (family timeout one_by_one : Z)
    (e : ResolveEnv) :
  timeout <= 0 ->
  ijk_tcp_getaddrinfo_nonblock hostname family timeout one_by_one e =
    (Some (gai_call e (normalize_hostname hostname) family),
     [RGetaddrinfo (normalize_hostname hostname) family]).
Proof.
  intros H. unfold ijk_tcp_getaddrinfo_nonblock.
  replace (timeout <=? 0) with true by (symmetry; apply Z.leb_le; exact H).
  reflexivity.
Qed.

Lemma resolve_sync_path_witness :
  ijk_tcp_getaddrinfo_nonblock (Some "example.com"%string) AF_UNSPEC 0 1 renv_v4 =
    (Some (0, Some ai_v4), [RGetaddrinfo (Some "example.com"%string) AF_UNSPEC]).
Proof. apply (resolve_sync_path (Some "example.com"%string) AF_UNSPEC 0 1 renv_v4). lia. Defined.

Lemma ai_elems_set_next (a : addrinfo) (x : option addrinfo) :
  ai_elems (ai_set_next a x) =
    ai_elem a :: match x with Some n => ai_elems n | None => [] end.
Proof. destruct a; reflexivity. Qed.

Lemma ai_elems_eq (a : addrinfo) :
  ai_elems a = ai_elem a :: match ai_next a with Some n => ai_elems n | None => [] end.
Proof. destruct a; reflexivity. Qed.

Lemma ai_append_elems (a : addrinfo) (t : option addrinfo) :
  ai_elems (ai_append a t) = ai_elems a ++ option_elems t.
Proof.
  revert a. apply addrinfo_next_ind.
  - intros a Hn. replace (ai_append a t) with (ai_set_next a t)
      by (destruct a; simpl in *; subst; reflexivity).
    rewrite ai_elems_set_next, (ai_elems_eq a), Hn. destruct t; reflexivity.
  - intros a n Hn IH.
    replace (ai_append a t) with (ai_set_next a (Some (ai_append n t)))
      by (destruct a; simpl in *; subst; reflexivity).
    rewrite ai_elems_set_next, IH, (ai_elems_eq a), Hn. reflexivity.
Qed.

Lemma ai_elems_nonempty (a : addrinfo) : ai_elems a <> [].
Proof. destruct a; discriminate. Qed.

Lemma family_results_cons (gai : getaddrinfo_fn) (f : Z) (fs : list Z) :
  family_results gai (f :: fs) = family_results gai [f] ++ family_results gai fs.
Proof. unfold family_results. simpl. rewrite app_nil_r. reflexivity. Qed.

Lemma family_results_nonempty (gai : getaddrinfo_fn) (fams : list Z) (f : Z)
    (t : addrinfo) :
  In f fams -> gai f = (0, Some t) -> family_results gai fams <> [].
Proof.
  induction fams as [|g fs IH]; [intros []|].
  intros [->|Hin] Hf; rewrite family_results_cons.
  - unfold family_results at 1. simpl. rewrite Hf. simpl.
    pose proof (ai_elems_nonempty t). destruct (ai_elems t); [congruence|discriminate].
  - intros Hx. apply app_eq_nil in Hx as [_ Hx]. exact (IH Hin Hf Hx).
Qed.

(** One family: its list, if any, goes to the end; a failure only
    records its code. *)
Lemma one_by_one_step_spec (gai : getaddrinfo_fn) (f : Z) (st : ReqState) :
  option_elems (req_res (snd (one_by_one_step gai f st))) =
    option_elems (req_res st) ++ family_results gai [f] /\
  finished (snd (one_by_one_step gai f st)) = finished st /\
  last_error (snd (one_by_one_step gai f st)) =
    (if fst (gai f) =? 0 then last_error st else fst (gai f)).
Proof.
  unfold one_by_one_step, family_results. simpl.
  destruct (gai f) as [ret t]. simpl.
  destruct (Z.eqb_spec ret 0) as [->|Hr]; simpl.
  - destruct (req_res st) as [r|]; simpl; rewrite ?app_nil_r.
    + rewrite ai_append_elems. auto.
    + auto.
  - rewrite app_nil_r. auto.
Qed.

(** What one family does: a failure writes the state without the mutex
    and leaves the list as it was; a success writes it with the mutex
    held. *)
Lemma one_by_one_step_shape (gai : getaddrinfo_fn) (f : Z) (st : ReqState) :
  (fst (gai f) <> 0 /\
   one_by_one_step gai f st =
     ([WGetaddrinfo f; WStore (snd (one_by_one_step gai f st))],
      snd (one_by_one_step gai f st)) /\
   req_res (snd (one_by_one_step gai f st)) = req_res st) \/
  (fst (gai f) = 0 /\
   one_by_one_step gai f st =
     ([WGetaddrinfo f; WLock; WStore (snd (one_by_one_step gai f st)); WUnlock],
      snd (one_by_one_step gai f st))).
Proof.
  unfold one_by_one_step. destruct (gai f) as [ret t]. simpl.
  destruct (Z.eqb_spec ret 0) as [->|Hr]; simpl.
  - right. split; reflexivity.
  - left. auto.
Qed.

Lemma one_by_one_loop_cons (gai : getaddrinfo_fn) (f : Z) (fs : list Z) (st : ReqState) :
  one_by_one_loop gai (f :: fs) st =
    (fst (one_by_one_step gai f st) ++
       fst (one_by_one_loop gai fs (snd (one_by_one_step gai f st))),
     snd (one_by_one_step gai f st) ::
       snd (one_by_one_loop gai fs (snd (one_by_one_step gai f st)))).
Proof.
  simpl. destruct (one_by_one_step gai f st) as [evs1 st1]. simpl.
  destruct (one_by_one_loop gai fs st1). reflexivity.
Qed.

(** C7.  The one-by-one worker calls [getaddrinfo] for IPv4 and then for
    IPv6, one call after the other.  Every write that changes the list (or
    [finished]) is made with the request mutex held; a failing family
    writes only [last_error], leaving the list as it was.  After each
    query the list holds, in order, the results of the families queried
    so far that succeeded, [last_error] holds the last failure code, and
    the request is not yet finished.  The finished request holds all the
    results, and when at least one family succeeds the list is non-empty
    and the waiter reports success. *)
Theorem one_by_one_worker_partial (gai : getaddrinfo_fn) :
  let '(evs, sts) := tcp_getaddrinfo_one_by_one_worker gai req_init in
  worker_calls evs = [AF_INET; AF_INET6] /\
  shared_writes_locked false req_init evs /\
  (forall (i : nat) (st : ReqState), (i < 2)%nat -> sts !! i = Some st ->
     option_elems (req_res st) = family_results gai (take (S i) family_option) /\
     last_error st = last_failure gai (take (S i) family_option) 0 /\
     finished st = false) /\
  (let st_end := List.last sts req_init in
   finished st_end = true /\ last_error st_end = last_failure gai family_option 0 /\
   option_elems (req_res st_end) = family_results gai family_option /\
   ((exists f t, In f family_option /\ gai f = (0, Some t)) ->
    family_results gai family_option <> [] /\
    consume_result st_end = (0, req_res st_end))).
Proof.
  unfold tcp_getaddrinfo_one_by_one_worker, family_option.
  rewrite !one_by_one_loop_cons. cbn [one_by_one_loop fst snd app].
  destruct (one_by_one_step_spec gai AF_INET req_init) as (E1 & F1 & L1).
  destruct (one_by_one_step_spec gai AF_INET6 (snd (one_by_one_step gai AF_INET req_init)))
    as (E2 & F2 & L2).
  pose proof (one_by_one_step_shape gai AF_INET req_init) as K1.
  pose proof (one_by_one_step_shape gai AF_INET6 (snd (one_by_one_step gai AF_INET req_init)))
    as K2.
  set (st1 := snd (one_by_one_step gai AF_INET req_init)) in *.
  set (st2 := snd (one_by_one_step gai AF_INET6 st1)) in *.
  simpl in F1. rewrite F1 in F2.
  rewrite E1 in E2.
  assert (E12 : option_elems (req_res st2) = family_results gai [AF_INET; AF_INET6])
    by (rewrite E2, (family_results_cons gai AF_INET [AF_INET6]); reflexivity).
  split; [|split; [|split]].
  - destruct K1 as [(_ & Ev1 & _) | (_ & Ev1)], K2 as [(_ & Ev2 & _) | (_ & Ev2)];
      rewrite Ev1, Ev2; reflexivity.
  - destruct K1 as [(_ & Ev1 & R1) | (_ & Ev1)], K2 as [(_ & Ev2 & R2) | (_ & Ev2)];
      rewrite Ev1, Ev2; simpl;
      repeat split; try (intros _; reflexivity);
      intros [Hx|Hx]; exfalso; apply Hx; simpl in *; congruence.
  - intros i st Hi Hst.
    destruct i as [|[|i]]; [| |lia]; simpl in Hst; injection Hst as <-.
    + split; [exact E1|]. split; [|exact F1].
      rewrite L1. unfold last_failure. reflexivity.
    + split; [exact E12|]. split; [|exact F2].
      rewrite L2, L1. unfold last_failure. reflexivity.
  - cbv zeta. simpl List.last. cbn [finished last_error req_res].
    split; [reflexivity|]. split.
    { rewrite L2, L1. unfold last_failure. reflexivity. }
    split; [exact E12|]. intros Hsucc.
    assert (Hne : family_results gai [AF_INET; AF_INET6] <> []).
    { destruct Hsucc as (f & t & Hin & Hf). exact (family_results_nonempty gai _ f t Hin Hf). }
    split; [exact Hne|].
    unfold consume_result. simpl. destruct (req_res st2); [reflexivity|].
    simpl in E12. symmetry in E12. contradiction.
Qed.

Lemma one_by_one_worker_partial_witness :
  option_elems (req_res (List.last (snd (tcp_getaddrinfo_one_by_one_worker gai_v6_only
                                             req_init)) req_init)) = [ai_v6] /\
  consume_result (List.last (snd (tcp_getaddrinfo_one_by_one_worker gai_v6_only req_init))
                    req_init) =
    (0, req_res (List.last (snd (tcp_getaddrinfo_one_by_one_worker gai_v6_only req_init))
                   req_init)).
Proof.
  assert (H : exists f t, In f family_option /\ gai_v6_only f = (0, Some t)).
  { exists AF_INET6, ai_v6. split; [right; left; reflexivity | reflexivity]. }
  assert (Hr : family_results gai_v6_only family_option = [ai_v6]) by reflexivity.
  pose proof (one_by_one_worker_partial gai_v6_only) as W.
  destruct (tcp_getaddrinfo_one_by_one_worker gai_v6_only req_init) as [evs sts].
  destruct W as (_ & _ & _ & _ & _ & He & Hs). simpl.
  split; [rewrite He; exact Hr | exact (proj2 (Hs H))].
Defined.

(* ------------------------------------------------------------------ *)
(** ** Further properties of the DNS cache *)

Lemma copy_sockaddr_idem (b : list Byte.byte) :
  copy_sockaddr (copy_sockaddr b) = copy_sockaddr b.
Proof.
  rewrite copy_sockaddr_long by (rewrite copy_sockaddr_length; lia).
  apply firstn_all2. rewrite copy_sockaddr_length. lia.
Qed.

Lemma copy_private_addrinfo_idem (a : addrinfo) :
  copy_private_addrinfo (copy_private_addrinfo a) = copy_private_addrinfo a.
Proof.
  unfold copy_private_addrinfo. simpl. destruct (ai_addr a); simpl;
    rewrite ?copy_sockaddr_idem; reflexivity.
Qed.

(** Storing a record (with the store's allocations succeeding) and reading
    it back while it is fresh gives a hit with the stored copy itself
    (copying twice is copying once) when the lookup's allocations succeed,
    and a miss otherwise; either way the read leaves the dictionary as the
    store made it. *)
Theorem set_get_roundtrip (ga : GetAlloc) (sa : SetAlloc) (s : TCPContext) (now1 now2 : Z)
    (h : string) (r : addrinfo) (b : list Byte.byte) (d : dns_dict) :
  set_info_ok sa && set_res_ok sa && set_addr_ok sa = true ->
  h <> ""%string -> 0 <= now1 -> 0 <= now2 -> ai_addr r = Some b ->
  dns_cache_clear s = 0 ->
  (dns_cache_timeout s < 0 \/ now2 - now1 < dns_cache_timeout s * 1000) ->
  get_dns_cache ga s now2 h (set_dns_cache sa now1 h r d) =
    if get_ai_ok ga && get_addr_ok ga
    then (1, Some (copy_private_addrinfo r), set_dns_cache sa now1 h r d)
    else (0, None, set_dns_cache sa now1 h r d).
Proof.
  intros Ha Hh Hn1 Hn2 Hb Hc Hf.
  pose proof (set_dns_cache_entry sa now1 h r b d Ha Hh Hn1 Hb) as Hset.
  unfold cache_entry in Hset.
  destruct (set_dns_cache sa now1 h r d !! h) as [[info|]|] eqn:E; try discriminate.
  injection Hset as Hi. subst info.
  unfold get_dns_cache. rewrite (get_dns_cache_guard s now2 h Hh Hn2), E, Hc. simpl.
  unfold dns_cache_fresh. simpl.
  replace ((dns_cache_timeout s <? 0) || (now2 <? now1 + dns_cache_timeout s * 1000))
    with true
    by (symmetry; apply orb_true_iff; destruct Hf; [left | right]; apply Z.ltb_lt; lia).
  simpl. rewrite Hb. simpl. rewrite copy_private_addrinfo_idem. reflexivity.
Qed.

(** The three operations on the dictionary touch only the entry of the
    hostname they are given. *)
Theorem dns_cache_other_keys (ga : GetAlloc) (sa : SetAlloc) (s : TCPContext) (now : Z)
    (h k : string) (r : addrinfo) (d : dns_dict) :
  k <> h ->
  set_dns_cache sa now h r d !! k = d !! k /\
  snd (get_dns_cache ga s now h d) !! k = d !! k /\
  invalidate_dns_cache h d !! k = d !! k.
Proof.
  intros Hk. unfold set_dns_cache, get_dns_cache, invalidate_dns_cache.
  split; [|split]; repeat case_match; simpl; rewrite ?lookup_insert_ne by congruence;
    reflexivity.
Qed.

(** [get_dns_cache] either hits, returning an address and leaving the
    dictionary alone, or misses, returning nothing and at most replacing
    the hostname's entry with NULL. *)
Theorem get_dns_cache_outcomes (ga : GetAlloc) (s : TCPContext) (now : Z) (h : string)
    (d : dns_dict) :
  let '(ret, ai, d') := get_dns_cache ga s now h d in
  (ret = 1 /\ ai <> None /\ d' = d) \/
  (ret = 0 /\ ai = None /\ (d' = d \/ d' = <[h := None]> d)).
Proof.
  unfold get_dns_cache. repeat case_match; simplify_eq;
    first [left; repeat split; congruence | right; repeat split; auto].
Qed.

(** After a miss on a well-formed lookup, either no live entry is left for
    the hostname (the next lookup misses too, until something is stored),
    or the miss came from a failed allocation while copying a fresh entry,
    and the dictionary, that entry included, is left as it was. *)
Theorem get_dns_cache_miss_clears (ga : GetAlloc) (s : TCPContext) (now : Z) (h : string)
    (d : dns_dict) :
  h <> ""%string -> 0 <= now ->
  fst (fst (get_dns_cache ga s now h d)) = 0 ->
  cache_entry (snd (get_dns_cache ga s now h d)) h = None \/
  (get_ai_ok ga && get_addr_ok ga = false /\ snd (get_dns_cache ga s now h d) = d).
Proof.
  intros Hh Hn. unfold get_dns_cache.
  rewrite (get_dns_cache_guard s now h Hh Hn).
  destruct (d !! h) as [[info|]|] eqn:E; simpl;
    [| left; unfold cache_entry; rewrite E; reflexivity ..].
  repeat case_match; simpl; try discriminate; intros _;
    first [left; unfold cache_entry; rewrite lookup_insert_eq; reflexivity
          | right; split; [first [assumption | reflexivity] | reflexivity]].
Qed.

(** With [dns_cache_clear] set, a lookup never hits: it behaves as the
    invalidation of the hostname's entry. *)
Theorem get_dns_cache_clear (ga : GetAlloc) (s : TCPContext) (now : Z) (h : string)
    (d : dns_dict) :
  h <> ""%string -> 0 <= now -> dns_cache_clear s <> 0 ->
  get_dns_cache ga s now h d = (0, None, invalidate_dns_cache h d).
Proof.
  intros Hh Hn Hc. unfold get_dns_cache, invalidate_dns_cache.
  rewrite (get_dns_cache_guard s now h Hh Hn).
  destruct (d !! h) as [[info|]|]; try reflexivity.
  replace (dns_cache_clear s =? 0) with false by (symmetry; apply Z.eqb_neq; exact Hc).
  reflexivity.
Qed.

Lemma set_get_roundtrip_witness :
  get_dns_cache get_alloc_ok (ctx_ttl 1) 900 "example.com"
    (set_dns_cache set_alloc_ok 10 "example.com" ai_v4 ∅) =
    (1, Some (copy_private_addrinfo ai_v4),
     set_dns_cache set_alloc_ok 10 "example.com" ai_v4 ∅).
Proof.
  exact (set_get_roundtrip get_alloc_ok set_alloc_ok (ctx_ttl 1) 10 900 "example.com" ai_v4
           sock_v4 ∅ eq_refl ltac:(discriminate) ltac:(lia) ltac:(lia) eq_refl eq_refl
           ltac:(right; simpl; lia)).
Defined.

Lemma dns_cache_other_keys_witness :
  set_dns_cache set_alloc_ok 3 "example.com" ai_v4 dict_one !! "other.org"%string =
    dict_one !! "other.org"%string /\
  snd (get_dns_cache get_alloc_ok (ctx_ttl 0) 7 "example.com" dict_one) !! "other.org"%string =
    dict_one !! "other.org"%string /\
  invalidate_dns_cache "example.com" dict_one !! "other.org"%string =
    dict_one !! "other.org"%string.
Proof.
  exact (dns_cache_other_keys get_alloc_ok set_alloc_ok (ctx_ttl 0) 3 "example.com" "other.org"
           ai_v4 dict_one ltac:(discriminate)).
Defined.

Lemma get_dns_cache_miss_clears_witness :
  fst (fst (get_dns_cache (mk_GetAlloc false true) (ctx_ttl (-1)) 7 "example.com"
              dict_one)) = 0 /\
  (cache_entry (snd (get_dns_cache (mk_GetAlloc false true) (ctx_ttl (-1)) 7 "example.com"
                       dict_one)) "example.com" = None \/
   (get_ai_ok (mk_GetAlloc false true) && get_addr_ok (mk_GetAlloc false true) = false /\
    snd (get_dns_cache (mk_GetAlloc false true) (ctx_ttl (-1)) 7 "example.com" dict_one) =
      dict_one)).
Proof.
  assert (H : fst (fst (get_dns_cache (mk_GetAlloc false true) (ctx_ttl (-1)) 7 "example.com"
                          dict_one)) = 0)
    by (vm_compute; reflexivity).
  split; [exact H|].
  exact (get_dns_cache_miss_clears (mk_GetAlloc false true) (ctx_ttl (-1)) 7 "example.com"
           dict_one ltac:(discriminate) ltac:(lia) H).
Defined.

Lemma get_dns_cache_clear_witness :
  get_dns_cache get_alloc_ok (mk_TCPContext 0 (-1) 0 (-1) 1 (-1) 1) 7 "example.com" dict_one =
    (0, None, invalidate_dns_cache "example.com" dict_one).
Proof.
  exact (get_dns_cache_clear get_alloc_ok (mk_TCPContext 0 (-1) 0 (-1) 1 (-1) 1) 7
           "example.com" dict_one ltac:(discriminate) ltac:(lia) ltac:(discriminate)).
Defined.

(* ------------------------------------------------------------------ *)
(** ** Further properties of the connect loop and of [tcp_open] *)

(** What one pass can do to the dictionary: nothing, or, on the success
    path of the connect mode without a cache hit, store the candidate. *)
Lemma try_candidate_dict (s : TCPContext) (e : ConnEnv) (hit : bool) (hb : string)
    (c : addrinfo) (d : dns_dict) :
  let '(a, _, d1) := try_candidate s e hit hb c d in
  d1 = d \/
  ((exists fd, a = AOk fd) /\ dns_cache s <> 0 /\ hit = false /\
   d1 = set_dns_cache (env_set_alloc e) (env_time_set e) hb c d).
Proof.
  unfold try_candidate. repeat case_match; simplify_eq; auto.
  right. split; [eauto|].
  repeat match goal with H : (_ && _) = true |- _ => apply andb_true_iff in H as [? ?] end.
  repeat match goal with H : negb _ = true |- _ => apply negb_true_iff in H end.
  split; [apply Z.eqb_neq; assumption|]. split; [|reflexivity].
  destruct hit; [discriminate|reflexivity].
Qed.

Lemma candidates_head (port : Z) (a : addrinfo) :
  In (ipv6_port_fix port a) (candidates port a).
Proof. unfold candidates. destruct a; simpl. left. reflexivity. Qed.

Lemma candidates_tail (port : Z) (a n : addrinfo) (c : addrinfo) :
  ai_next a = Some n -> In c (candidates port n) -> In c (candidates port a).
Proof. intros H Hin. rewrite (candidates_step port a n H). right. exact Hin. Qed.

Lemma connect_loop_dict (s : TCPContext) (e : ConnEnv) (port : Z) (hit : bool)
    (hb : string) (cur : addrinfo) (d : dns_dict) :
  let '(r, _, d') := connect_loop s e port hit hb cur d in
  match r with
  | LFail _ => d' = d
  | LOk _ =>
      d' = d \/
      (dns_cache s <> 0 /\ hit = false /\
       exists c, In c (candidates port cur) /\ d' = set_dns_cache (env_set_alloc e) (env_time_set e) hb c d)
  end.
Proof.
  revert cur.
  apply (addrinfo_next_ind (fun cur =>
    let '(r, _, d') := connect_loop s e port hit hb cur d in
    match r with
    | LFail _ => d' = d
    | LOk _ =>
        d' = d \/
        (dns_cache s <> 0 /\ hit = false /\
         exists c, In c (candidates port cur) /\ d' = set_dns_cache (env_set_alloc e) (env_time_set e) hb c d)
    end)).
  - intros a Hn. rewrite connect_loop_eq.
    pose proof (try_candidate_dict s e hit hb (ipv6_port_fix port a) d) as Hd.
    destruct (try_candidate s e hit hb (ipv6_port_fix port a) d) as [[r evs] d1].
    destruct Hd as [-> | ([fd ->] & Hc & Hh & ->)].
    + destruct r; [left; reflexivity | rewrite Hn; reflexivity | reflexivity].
    + right. split; [exact Hc|]. split; [exact Hh|].
      exists (ipv6_port_fix port a). split; [apply candidates_head | reflexivity].
  - intros a n Hn IH. rewrite connect_loop_eq.
    pose proof (try_candidate_dict s e hit hb (ipv6_port_fix port a) d) as Hd.
    destruct (try_candidate s e hit hb (ipv6_port_fix port a) d) as [[r evs] d1].
    destruct Hd as [-> | ([fd ->] & Hc & Hh & ->)].
    + destruct r as [fd|ret fd|ret fd]; [left; reflexivity| |reflexivity].
      rewrite Hn. destruct (connect_loop s e port hit hb n d) as [[r' evs'] d2].
      destruct r'; [|exact IH].
      destruct IH as [-> | (Hc & Hh & c & Hin & ->)]; [left; reflexivity|].
      right. split; [exact Hc|]. split; [exact Hh|].
      exists c. split; [exact (candidates_tail port a n c Hn Hin) | reflexivity].
    + right. split; [exact Hc|]. split; [exact Hh|].
      exists (ipv6_port_fix port a). split; [apply candidates_head | reflexivity].
Qed.

(** The connect loop writes the DNS cache only when it succeeds, and then
    only with the cache enabled and the address not taken from the cache:
    the dictionary afterwards is the one before, or the one before with
    one of the (port-fixed) candidates stored under the hostname. *)
Theorem connect_loop_cache_writes (s : TCPContext) (e : ConnEnv) (port : Z) (hit : bool)
    (hb : string) (cur : addrinfo) (d : dns_dict) :
  let '(r, _, d') := connect_loop s e port hit hb cur d in
  match r with
  | LFail _ => d' = d
  | LOk _ =>
      d' = d \/
      (dns_cache s <> 0 /\ hit = false /\
       exists c, In c (candidates port cur) /\ d' = set_dns_cache (env_set_alloc e) (env_time_set e) hb c d)
  end.
Proof. apply connect_loop_dict. Qed.


Lemma tcp_open_cache_off_dict (s0 : TCPContext) (e : ConnEnv) (h : string) (port : Z)
    (d : dns_dict) :
  dns_cache s0 = 0 -> snd (tcp_open s0 e h port d) = d.
Proof.
  intros Hc. unfold tcp_open. rewrite dns_cache_defaults, Hc. simpl.
  destruct ((port <=? 0) || (65536 <=? port)); [reflexivity|].
  destruct (env_resolve e) as [ret ai]. simpl.
  destruct (ret =? 0); [|reflexivity]. simpl.
  destruct ai as [a|]; [|reflexivity].
  pose proof (connect_loop_dict (tcp_defaults s0) e port false h a d) as Hd.
  destruct (connect_loop (tcp_defaults s0) e port false h a d) as [[r evs] d2].
  rewrite dns_cache_defaults in Hd.
  destruct r; simpl.
  - destruct Hd as [-> | [Hc' _]]; [reflexivity | contradiction].
  - rewrite ?dns_cache_defaults, ?Hc. simpl. exact Hd.
Qed.



(** Without a cache hit, a failed resolution makes [tcp_open] return
    [AVERROR(EIO)] (the resolver's own code is not passed on) without
    creating any socket. *)
Theorem tcp_open_resolve_failure (s0 : TCPContext) (e : ConnEnv) (h : string) (port : Z)
    (d : dns_dict) :
  0 < port < 65536 ->
  (dns_cache s0 = 0 \/ fst (fst (get_dns_cache (env_get_alloc e) s0 (env_time_get e) h d)) = 0) ->
  fst (env_resolve e) <> 0 ->
  fst (fst (tcp_open s0 e h port d)) = AVERROR EIO /\ snd (fst (tcp_open s0 e h port d)) = [].
Proof.
  intros Hp Hmiss Hr. unfold tcp_open.
  destruct (Z.leb_spec port 0); [lia|]. destruct (Z.leb_spec 65536 port); [lia|].
  simpl. rewrite dns_cache_defaults, get_dns_cache_defaults.
  assert (Hhit : (if negb (dns_cache s0 =? 0) then get_dns_cache (env_get_alloc e) s0 (env_time_get e) h d
                  else (0, None, d)).1.1 = 0).
  { destruct Hmiss as [Hc | Hg].
    - rewrite Hc. reflexivity.
    - destruct (negb (dns_cache s0 =? 0)); [exact Hg | reflexivity]. }
  destruct (if negb (dns_cache s0 =? 0) then get_dns_cache (env_get_alloc e) s0 (env_time_get e) h d
            else (0, None, d)) as [[hz cached] d1].
  simpl in Hhit. subst hz. simpl.
  destruct (env_resolve e) as [ret ai]. simpl in Hr.
  apply Z.eqb_neq in Hr. rewrite Hr. split; reflexivity.
Qed.

(** With the DNS cache off, [tcp_open] never changes the dictionary,
    whatever happens to the connection. *)
Theorem tcp_open_no_cache_dict (s0 : TCPContext) (e : ConnEnv) (h : string) (port : Z)
    (d : dns_dict) :
  dns_cache s0 = 0 -> snd (tcp_open s0 e h port d) = d.
Proof. apply tcp_open_cache_off_dict. Qed.

Lemma tcp_open_no_cache_dict_witness :
  dns_cache ctx_connect = 0 /\
  snd (tcp_open ctx_connect env_failover "example.com" 443 dict_one) = dict_one.
Proof.
  split; [reflexivity|].
  exact (tcp_open_no_cache_dict ctx_connect env_failover "example.com" 443 dict_one eq_refl).
Defined.



Lemma tcp_open_resolve_failure_witness :
  fst (fst (tcp_open ctx_connect env_unresolved "example.com" 443 ∅)) = AVERROR EIO /\
  snd (fst (tcp_open ctx_connect env_unresolved "example.com" 443 ∅)) = [].
Proof.
  exact (tcp_open_resolve_failure ctx_connect env_unresolved "example.com" 443 ∅
           ltac:(lia) ltac:(left; reflexivity) ltac:(discriminate)).
Defined.

(** In both listen modes a failing [ff_listen] / [ff_listen_bind] ends
    [tcp_open]'s loop at the first candidate, with its socket closed,
    even when further candidates remain. *)
Theorem listen_failure_no_failover (s : TCPContext) (e : ConnEnv) (port : Z) (hit : bool)
    (hb : string) (cur : addrinfo) (d : dns_dict) :
  let c := ipv6_port_fix port cur in
  let fd := env_socket e c in
  0 <= fd ->
  (listen s = 2 -> env_listen e c fd < 0 ->
   connect_loop s e port hit hb cur d =
     (LFail (env_listen e c fd), [TSocket c fd; TListen fd (env_listen e c fd); TClose fd], d)) /\
  (listen s = 1 -> env_listen_bind e c fd < 0 ->
   connect_loop s e port hit hb cur d =
     (LFail (env_listen_bind e c fd),
      [TSocket c fd; TListenBind fd (env_listen_bind e c fd); TClose fd], d)).
Proof.
  intros c fd Hfd. rewrite connect_loop_eq. fold c.
  unfold try_candidate. fold fd.
  destruct (Z.ltb_spec fd 0); [lia|].
  unfold close_if_open. assert (Hle : (0 <=? fd) = true) by (apply Z.leb_le; lia).
  split; intros Hl Hr; rewrite Hl; simpl;
    apply Z.ltb_lt in Hr; rewrite Hr, Hle; reflexivity.
Qed.

Lemma listen_failure_no_failover_witness :
  0 <= env_socket env_listen_fail (ipv6_port_fix 443 ai_pair) /\
  connect_loop (ctx_listen 2) env_listen_fail 443 false "example.com" ai_pair ∅ =
    (LFail (-48), [TSocket ai_pair 3; TListen 3 (-48); TClose 3], ∅) /\
  connect_loop (ctx_listen 1) env_listen_fail 443 false "example.com" ai_pair ∅ =
    (LFail (-48), [TSocket ai_pair 3; TListenBind 3 (-48); TClose 3], ∅).
Proof.
  assert (Hfd : 0 <= env_socket env_listen_fail (ipv6_port_fix 443 ai_pair))
    by (simpl; lia).
  split; [exact Hfd|].
  destruct (listen_failure_no_failover (ctx_listen 2) env_listen_fail 443 false "example.com"
              ai_pair ∅ Hfd) as [H2 _].
  destruct (listen_failure_no_failover (ctx_listen 1) env_listen_fail 443 false "example.com"
              ai_pair ∅ Hfd) as [_ H1].
  split; [exact (H2 eq_refl ltac:(simpl; lia)) | exact (H1 eq_refl ltac:(simpl; lia))].
Defined.

Lemma opened_fds_app (l1 l2 : list tcp_event) :
  opened_fds (l1 ++ l2) = opened_fds l1 ++ opened_fds l2.
Proof.
  induction l1 as [|ev l1 IH]; [reflexivity|].
  destruct ev; simpl; rewrite ?IH; try reflexivity. by case_match.
Qed.

Lemma closed_fds_app (l1 l2 : list tcp_event) :
  closed_fds (l1 ++ l2) = closed_fds l1 ++ closed_fds l2.
Proof.
  induction l1 as [|ev l1 IH]; [reflexivity|].
  destruct ev; simpl; rewrite ?IH; reflexivity.
Qed.

(** One pass opens at most the descriptor [ff_socket] returned, closes
    nothing, and reports that descriptor on failure. *)
Lemma try_candidate_fds (s : TCPContext) (e : ConnEnv) (hit : bool) (hb : string)
    (c : addrinfo) (d : dns_dict) :
  let fd := env_socket e c in
  let '(a, evs, _) := try_candidate s e hit hb c d in
  closed_fds evs = [] /\
  opened_fds evs = (if 0 <=? fd then [fd] else []) /\
  match a with
  | AOk fd' => 0 <= fd /\ (listen s <> 1 -> fd' = fd)
  | AFail _ fd' | AFail1 _ fd' => fd' = fd
  end.
Proof.
  intros fd. unfold try_candidate. fold fd.
  destruct (Z.ltb_spec fd 0).
  - simpl. destruct (Z.leb_spec 0 fd); [lia|]. auto.
  - assert (Hf : (0 <=? fd) = true) by (apply Z.leb_le; lia).
    unfold fd in Hf.
    repeat case_match; simplify_eq; simpl; rewrite ?Hf;
      repeat split; try reflexivity; try lia.
    all: match goal with Hb : (0 <=? _) = true |- _ => rewrite Hb; reflexivity end.
Qed.

(** No descriptor leaks from the connect loop: after a failure every
    socket it opened has been closed; after a success exactly one is left
    open, the descriptor returned (outside the single-client listen mode,
    where [ff_listen_bind] hands back the accepted connection instead). *)
Theorem connect_loop_fds (s : TCPContext) (e : ConnEnv) (port : Z) (hit : bool)
    (hb : string) (cur : addrinfo) (d : dns_dict) :
  let '(r, evs, _) := connect_loop s e port hit hb cur d in
  match r with
  | LFail _ => closed_fds evs = opened_fds evs
  | LOk fd => exists fd0, opened_fds evs = closed_fds evs ++ [fd0] /\ (listen s <> 1 -> fd = fd0)
  end.
Proof.
  revert cur d.
  apply (addrinfo_next_ind (fun cur => forall d,
    let '(r, evs, _) := connect_loop s e port hit hb cur d in
    match r with
    | LFail _ => closed_fds evs = opened_fds evs
    | LOk fd => exists fd0, opened_fds evs = closed_fds evs ++ [fd0] /\ (listen s <> 1 -> fd = fd0)
    end)).
  - intros a Hn d. rewrite connect_loop_eq.
    pose proof (try_candidate_fds s e hit hb (ipv6_port_fix port a) d) as Hf.
    destruct (try_candidate s e hit hb (ipv6_port_fix port a) d) as [[r evs] d1].
    destruct Hf as (Hc & Ho & Hr).
    destruct r as [fd|ret fd|ret fd].
    + destruct Hr as [Hle Hl]. exists (env_socket e (ipv6_port_fix port a)).
      rewrite Ho, Hc. apply Z.leb_le in Hle. rewrite Hle. split; [reflexivity | exact Hl].
    + rewrite Hn. subst fd.
      rewrite opened_fds_app, closed_fds_app, Ho, Hc. unfold close_if_open.
      by destruct (0 <=? _).
    + subst fd. rewrite opened_fds_app, closed_fds_app, Ho, Hc. unfold close_if_open.
      by destruct (0 <=? _).
  - intros a n Hn IH d. rewrite connect_loop_eq.
    pose proof (try_candidate_fds s e hit hb (ipv6_port_fix port a) d) as Hf.
    destruct (try_candidate s e hit hb (ipv6_port_fix port a) d) as [[r evs] d1].
    destruct Hf as (Hc & Ho & Hr).
    destruct r as [fd|ret fd|ret fd].
    + destruct Hr as [Hle Hl]. exists (env_socket e (ipv6_port_fix port a)).
      rewrite Ho, Hc. apply Z.leb_le in Hle. rewrite Hle. split; [reflexivity | exact Hl].
    + rewrite Hn. subst fd. specialize (IH d1).
      destruct (connect_loop s e port hit hb n d1) as [[r' evs'] d2].
      rewrite !opened_fds_app, !closed_fds_app, Ho, Hc.
      assert (Hcl : closed_fds (close_if_open (env_socket e (ipv6_port_fix port a))) =
                    (if 0 <=? env_socket e (ipv6_port_fix port a)
                     then [env_socket e (ipv6_port_fix port a)] else []) /\
                    opened_fds (close_if_open (env_socket e (ipv6_port_fix port a))) = [])
        by (unfold close_if_open; destruct (0 <=? _); split; reflexivity).
      destruct Hcl as [-> ->]. simpl.
      destruct r'.
      * destruct IH as (fd0 & Ho' & Hl). exists fd0. rewrite Ho'.
        split; [rewrite app_assoc; reflexivity | exact Hl].
      * rewrite IH. reflexivity.
    + subst fd. rewrite opened_fds_app, closed_fds_app, Ho, Hc. unfold close_if_open.
      by destruct (0 <=? _).
Qed.



Lemma byte_of_Z_to_N (z : Z) :
  0 <= z <= 255 -> Z.of_N (Byte.to_N (byte_of_Z z)) = z.
Proof.
  intros Hz. unfold byte_of_Z.
  destruct (Byte.of_N (Z.to_N z)) as [b|] eqn:E.
  - apply Byte.to_of_N in E. rewrite E. lia.
  - apply Byte.of_N_None_iff in E. lia.
Qed.

Lemma port_bytes_nonzero (port : Z) :
  0 < port < 65536 ->
  Byte.eqb (byte_of_Z (port / 256)) Byte.x00 && Byte.eqb (byte_of_Z (port mod 256)) Byte.x00
  = false.
Proof.
  intros Hp.
  assert (Hq : 0 <= port / 256 <= 255)
    by (split; [apply Z.div_pos | cut (port / 256 < 256); [lia | apply Z.div_lt_upper_bound]]; lia).
  assert (Hr : 0 <= port mod 256 <= 255) by (pose proof (Z.mod_pos_bound port 256); lia).
  destruct (Byte.eqb (byte_of_Z (port / 256)) Byte.x00) eqn:E1; [|reflexivity].
  destruct (Byte.eqb (byte_of_Z (port mod 256)) Byte.x00) eqn:E2; [|reflexivity].
  apply Byte.byte_dec_bl in E1, E2.
  pose proof (byte_of_Z_to_N _ Hq) as B1. pose proof (byte_of_Z_to_N _ Hr) as B2.
  rewrite E1 in B1. rewrite E2 in B2. simpl in B1, B2.
  pose proof (Z.div_mod port 256). lia.
Qed.

(** For a valid port the workaround is idempotent: once written, the
    port is no longer zero and a second pass leaves the candidate alone. *)
Theorem ipv6_port_fix_idem (port : Z) (a : addrinfo) :
  0 < port < 65536 -> ipv6_port_fix port (ipv6_port_fix port a) = ipv6_port_fix port a.
Proof.
  intros Hp. unfold ipv6_port_fix at 2 3.
  destruct (ai_family a =? AF_INET6) eqn:F; [|unfold ipv6_port_fix; rewrite F; reflexivity].
  destruct (ai_addr a) as [[|b0 [|b1 [|p0 [|p1 rest]]]]|] eqn:A;
    try (unfold ipv6_port_fix; rewrite F, A; reflexivity).
  destruct (Byte.eqb p0 Byte.x00 && Byte.eqb p1 Byte.x00) eqn:Z0;
    [|unfold ipv6_port_fix; rewrite F, A, Z0; reflexivity].
  unfold ipv6_port_fix at 1. simpl. rewrite F, (port_bytes_nonzero port Hp). reflexivity.
Qed.

Lemma ipv6_port_fix_idem_witness :
  ipv6_port_fix 443 (ipv6_port_fix 443 ai_v6_noport) = ipv6_port_fix 443 ai_v6_noport.
Proof. exact (ipv6_port_fix_idem 443 ai_v6_noport ltac:(lia)). Defined.

(* ------------------------------------------------------------------ *)
(** ** Further properties of the resolver *)

Lemma consume_result_ret (st : ReqState) :
  fst (consume_result st) = 0 <-> snd (consume_result st) <> None.
Proof.
  unfold consume_result. destruct (req_res st); simpl.
  - split; [discriminate | reflexivity].
  - split; [|contradiction]. intros H.
    destruct (Z.eqb_spec (last_error st) 0); [discriminate | contradiction].
Qed.

(** Whatever way the wait loop ends, it reports success exactly when it
    hands back an address list: an error code never comes with a list and
    a list never with an error code. *)
Theorem wait_loop_ret_list (start timeout now : Z) (st : ReqState) (ws : list Wakeup)
    (ret : Z) (ai : option addrinfo) :
  fst (wait_loop start timeout now st ws) = Some (ret, ai) -> (ret = 0 <-> ai <> None).
Proof.
  revert now st. induction ws as [|w ws IH]; intros now st; simpl.
  - destruct (finished st || (start + timeout <? now)); simpl; [|discriminate].
    intros H. injection H as H. pose proof (consume_result_ret st) as Hc.
    rewrite H in Hc. exact Hc.
  - destruct (finished st || (start + timeout <? now)); simpl.
    + intros H. injection H as H. pose proof (consume_result_ret st) as Hc.
      rewrite H in Hc. exact Hc.
    + destruct (negb (tw_ret w =? 0) && negb (tw_ret w =? ETIMEDOUT)); simpl.
      { intros H. injection H as <- <-. split; [discriminate | contradiction]. }
      destruct (interrupted w); simpl.
      { intros H. injection H as <- <-. split; [discriminate | contradiction]. }
      specialize (IH (now_after w) (state_after w)).
      destruct (wait_loop start timeout (now_after w) (state_after w) ws) as [r evs].
      exact IH.
Qed.

Lemma wait_loop_events (start timeout now : Z) (st : ReqState) (ws : list Wakeup) :
  Forall (eq RCheckInterrupt) (snd (wait_loop start timeout now st ws)).
Proof.
  revert now st. induction ws as [|w ws IH]; intros now st; simpl.
  - destruct (_ || _); constructor.
  - destruct (_ || _); [constructor|].
    destruct (_ && _); [constructor|].
    destruct (interrupted w); [repeat constructor|].
    specialize (IH (now_after w) (state_after w)).
    destruct (wait_loop start timeout (now_after w) (state_after w) ws).
    constructor; [reflexivity | exact IH].
Qed.

(** With a positive timeout the calling thread never calls [getaddrinfo]
    itself: it starts exactly one worker, of the requested kind, when the
    request, its buffer reference and the thread are all created, and
    otherwise starts nothing; after the start it only checks for
    interruptions. *)
Theorem resolve_async_single_spawn (hostname : option string) (family timeout one_by_one : Z)
    (e : ResolveEnv) :
  0 < timeout ->
  let evs := snd (ijk_tcp_getaddrinfo_nonblock hostname family timeout one_by_one e) in
  (request_create_ret e = 0 /\ buffer_ref_ok e = true /\ thread_create_ret e = 0 /\
   exists evs', evs = RSpawn (negb (one_by_one =? 0)) :: evs' /\
                Forall (eq RCheckInterrupt) evs') \/
  ((request_create_ret e <> 0 \/ buffer_ref_ok e = false \/ thread_create_ret e <> 0) /\
   evs = []).
Proof.
  intros Ht. unfold ijk_tcp_getaddrinfo_nonblock.
  destruct (Z.leb_spec timeout 0); [lia|].
  destruct (Z.eqb_spec (request_create_ret e) 0) as [Hc|Hc]; simpl;
    [|right; split; [left; exact Hc | reflexivity]].
  destruct (buffer_ref_ok e) eqn:Hb; simpl;
    [|right; split; [right; left; reflexivity | reflexivity]].
  destruct (Z.eqb_spec (thread_create_ret e) 0) as [Hth|Hth]; simpl;
    [|right; split; [right; right; exact Hth | reflexivity]].
  pose proof (wait_loop_events (start_time e) timeout (start_time e) (first_state e)
                (wakeups e)) as Hw.
  destruct (wait_loop (start_time e) timeout (start_time e) (first_state e) (wakeups e))
    as [r evs].
  left. split; [exact Hc|]. split; [reflexivity|]. split; [exact Hth|].
  exists evs. split; [reflexivity | exact Hw].
Qed.

(** The plain worker drops the return value of [getaddrinfo]: when the
    platform call fails, the request ends finished with no list and no
    recorded error, so the waiter can only report [AVERROR_EXIT]. *)
Theorem worker_failure_exit (gai : getaddrinfo_fn) (family : Z) :
  fst (gai family) <> 0 ->
  let st := List.last (tcp_getaddrinfo_worker gai family req_init) req_init in
  finished st = true /\ consume_result st = (AVERROR_EXIT, None).
Proof.
  intros Hf. unfold tcp_getaddrinfo_worker.
  destruct (gai family) as [ret r]. simpl in Hf.
  apply Z.eqb_neq in Hf. rewrite Hf. simpl. split; reflexivity.
Qed.

Lemma wait_loop_ret_list_witness :
  fst (wait_loop 0 1000 0 req_init
         [mk_Wakeup ETIMEDOUT false 500 (mk_ReqState true (Some ai_v4) 0)]) =
    Some (0, Some ai_v4) /\
  (0 = 0 <-> Some ai_v4 <> None).
Proof.
  assert (H : fst (wait_loop 0 1000 0 req_init
                     [mk_Wakeup ETIMEDOUT false 500 (mk_ReqState true (Some ai_v4) 0)]) =
              Some (0, Some ai_v4)) by (vm_compute; reflexivity).
  split; [exact H | exact (wait_loop_ret_list _ _ _ _ _ 0 (Some ai_v4) H)].
Defined.

Lemma resolve_async_single_spawn_witness :
  snd (ijk_tcp_getaddrinfo_nonblock (Some "example.com"%string) AF_UNSPEC 1000 1
         (mk_ResolveEnv (fun _ _ => (0, Some ai_v4)) 0 true 0 0 req_init
            [mk_Wakeup ETIMEDOUT false 500 (mk_ReqState true (Some ai_v4) 0)])) =
    [RSpawn true; RCheckInterrupt] /\
  ((0 = 0 /\ true = true /\ 0 = 0 /\
    exists evs', [RSpawn true; RCheckInterrupt] = RSpawn (negb (1 =? 0)) :: evs' /\
                 Forall (eq RCheckInterrupt) evs') \/
   ((0 <> 0 \/ true = false \/ 0 <> 0) /\ [RSpawn true; RCheckInterrupt] = [])).
Proof.
  split; [vm_compute; reflexivity|].
  exact (resolve_async_single_spawn (Some "example.com"%string) AF_UNSPEC 1000 1
           (mk_ResolveEnv (fun _ _ => (0, Some ai_v4)) 0 true 0 0 req_init
              [mk_Wakeup ETIMEDOUT false 500 (mk_ReqState true (Some ai_v4) 0)])
           ltac:(lia)).
Defined.

Lemma worker_failure_exit_witness :
  finished (List.last (tcp_getaddrinfo_worker gai_all_fail AF_UNSPEC req_init) req_init) = true /\
  consume_result (List.last (tcp_getaddrinfo_worker gai_all_fail AF_UNSPEC req_init) req_init) =
    (AVERROR_EXIT, None).
Proof. exact (worker_failure_exit gai_all_fail AF_UNSPEC ltac:(discriminate)). Defined.

(* ------------------------------------------------------------------ *)
(** ** [tcp_getaddrinfo_request_create] *)

(** After duplicating [servname] the function tests [req->hostname]: a
    request with a service but no host name is refused with
    [AVERROR(ENOMEM)] whatever the allocations do. *)
Theorem request_create_null_host (ae : AllocEnv) (servname : string) (hf : option Z) :
  tcp_getaddrinfo_request_create ae None (Some servname) hf = (AVERROR ENOMEM, None).
Proof.
  unfold tcp_getaddrinfo_request_create.
  destruct (alloc_req_ok ae), (mutex_init_ok ae), (cond_init_ok ae); reflexivity.
Qed.

(** For the same reason a failed duplication of [servname] goes unnoticed
    when a host name is given: the request is created, with no service. *)
Theorem request_create_servname_unchecked (ae : AllocEnv) (h sv : string) (hf : option Z) :
  alloc_req_ok ae = true -> mutex_init_ok ae = true -> cond_init_ok ae = true ->
  strdup_host_ok ae = true -> strdup_serv_ok ae = false -> buffer_create_ok ae = true ->
  tcp_getaddrinfo_request_create ae (Some h) (Some sv) hf =
    (0, Some (mk_TCPAddrinfoRequest (Some h) None
                (match hf with Some f => f | None => 0 end) req_init)).
Proof.
  intros H1 H2 H3 H4 H5 H6. unfold tcp_getaddrinfo_request_create.
  rewrite H1, H2, H3, H4, H5, H6. reflexivity.
Qed.

(** The request is created exactly when the allocation of the request,
    the mutex and condition initialisations, the duplication of the host
    name (when one is given) and the buffer creation succeed and a service
    name comes with a host name; the duplication of the service name plays
    no part. *)
Theorem request_create_success (ae : AllocEnv) (host serv : option string) (hf : option Z) :
  fst (tcp_getaddrinfo_request_create ae host serv hf) = 0 <->
  alloc_req_ok ae = true /\ mutex_init_ok ae = true /\ cond_init_ok ae = true /\
  (host = None \/ strdup_host_ok ae = true) /\ (serv = None \/ host <> None) /\
  buffer_create_ok ae = true.
Proof.
  unfold tcp_getaddrinfo_request_create.
  destruct (alloc_req_ok ae), (mutex_init_ok ae), (cond_init_ok ae),
    (strdup_host_ok ae), (strdup_serv_ok ae), (buffer_create_ok ae),
    host, serv; simpl;
    split; intros Hs; try discriminate; intuition congruence.
Qed.

Lemma request_create_servname_unchecked_witness :
  tcp_getaddrinfo_request_create (mk_AllocEnv true true true true false true)
    (Some "example.com"%string) (Some "443"%string) (Some AF_UNSPEC) =
    (0, Some (mk_TCPAddrinfoRequest (Some "example.com"%string) None AF_UNSPEC req_init)).
Proof.
  exact (request_create_servname_unchecked (mk_AllocEnv true true true true false true)
           "example.com" "443" (Some AF_UNSPEC) eq_refl eq_refl eq_refl eq_refl eq_refl eq_refl).
Defined.

(* ------------------------------------------------------------------ *)
(** ** [tcp_read] and [tcp_write] *)



(** The application's read callback is told about a read exactly when
    [recv] is reached and returns a positive count, and it is told that
    count, which is also what [tcp_read] returns. *)
Theorem tcp_read_callback (flags rw_timeout size : Z) (e : IOEnv) (n : Z) :
  In (IODidRead n) (snd (tcp_read flags rw_timeout size e)) <->
  ((Z.land flags AVIO_FLAG_NONBLOCK <> 0 \/ io_wait_ret e = 0) /\
   0 < io_recv_ret e /\ n = io_recv_ret e /\ fst (tcp_read flags rw_timeout size e) = n).
Proof.
  unfold tcp_read.
  destruct (Z.eqb_spec (Z.land flags AVIO_FLAG_NONBLOCK) 0) as [Hf|Hf].
  - destruct (Z.eqb_spec (io_wait_ret e) 0) as [Hw|Hw]; simpl.
    + destruct (Z.ltb_spec 0 (io_recv_ret e)) as [Hp|Hp]; simpl.
      * destruct (Z.ltb_spec (io_recv_ret e) 0) as [Hn|Hn]; [lia|].
        split; [intros [Hi|[Hi|[Hi|[]]]]; try discriminate; injection Hi as <-; auto |].
        intros (_ & _ & -> & _). right. right. left. reflexivity.
      * split; [intros [Hi|[Hi|[]]]; discriminate | lia].
    + split; [intros [Hi|[]]; discriminate | intros [[|] _]; contradiction].
  - simpl. destruct (Z.ltb_spec 0 (io_recv_ret e)) as [Hp|Hp]; simpl.
    + destruct (Z.ltb_spec (io_recv_ret e) 0) as [Hn|Hn]; [lia|].
      split; [intros [Hi|[Hi|[]]]; try discriminate; injection Hi as <-; auto |].
      intros (_ & _ & -> & _). right. left. reflexivity.
    + split; [intros [Hi|[]]; discriminate | lia].
Qed.



(* ------------------------------------------------------------------ *)
(** ** The mutex-initialisation fallback of [tcp_open] *)


